(** * Request throttling: a shallow embedding of [rest_framework/throttling.py]

    The development follows the module top-down: Python primitives the
    throttles rely on, the cache they share, then [BaseThrottle],
    [SimpleRateThrottle] with its scope variants and [CommonThrottle].
    Timestamps are rationals: the comparisons, subtractions and divisions
    the throttles perform are exact here, the rounding of IEEE doubles is
    outside the model.  A [string] is a sequence of code points below 256,
    the range a WSGI server decodes headers to. *)

From Stdlib Require Import ZArith QArith Qminmax Lqa Lia List String Ascii.
From Stdlib Require Import DecimalString DecimalZ Sorted.
From stdpp Require Import gmap strings list.

Local Open Scope string_scope.
Local Open Scope list_scope.
Local Open Scope Z_scope.

(** ** Exceptions and results *)

Inductive exn : Type :=
| ImproperlyConfigured (msg : string)
| KeyError
| ValueError
| TypeError
| IndexError.

Inductive result (A : Type) : Type :=
| Ok (a : A)
| Raise (e : exn).

Arguments Ok {A} a.
Arguments Raise {A} e.

Definition rbind {A B : Type} (r : result A) (k : A -> result B) : result B :=
  match r with
  | Ok a => k a
  | Raise e => Raise e
  end.

(** ** Python primitives *)

Module Py.

(** [str.isspace] on the code points below 256. *)
Definition is_space (c : ascii) : bool :=
  let n := nat_of_ascii c in
  (Nat.leb 9 n && Nat.leb n 13) || (Nat.leb 28 n && Nat.leb n 32)
  || Nat.eqb n 133 || Nat.eqb n 160.

(** [s.split(sep)] for a one-character separator: never the empty list. *)
Fixpoint split_on (sep : ascii) (s : string) : list string :=
  match s with
  | EmptyString => [EmptyString]
  | String c s' =>
      if Ascii.eqb c sep then EmptyString :: split_on sep s'
      else match split_on sep s' with
           | hd :: tl => String c hd :: tl
           | [] => [String c EmptyString]
           end
  end.

(** [s.split()]: the maximal runs of non-whitespace characters. *)
Fixpoint split_ws (s : string) : list string :=
  match s with
  | EmptyString => []
  | String c s' =>
      if is_space c then split_ws s'
      else match s' with
           | EmptyString => [String c EmptyString]
           | String c' _ =>
               if is_space c' then String c EmptyString :: split_ws s'
               else match split_ws s' with
                    | hd :: tl => String c hd :: tl
                    | [] => [String c EmptyString]
                    end
           end
  end.

(** [''.join(l)] *)
Definition join (l : list string) : string := String.concat EmptyString l.

Fixpoint lstrip (s : string) : string :=
  match s with
  | EmptyString => EmptyString
  | String c s' => if is_space c then lstrip s' else s
  end.

Fixpoint rstrip (s : string) : string :=
  match s with
  | EmptyString => EmptyString
  | String c s' =>
      match rstrip s' with
      | EmptyString => if is_space c then EmptyString else String c EmptyString
      | r => String c r
      end
  end.

(** [s.strip()] *)
Definition strip (s : string) : string := rstrip (lstrip s).

(** The characters of [s] that are not whitespace, in order. *)
Fixpoint drop_spaces (s : string) : string :=
  match s with
  | EmptyString => EmptyString
  | String c s' => if is_space c then drop_spaces s' else String c (drop_spaces s')
  end.

Fixpoint all_spaces (s : string) : bool :=
  match s with
  | EmptyString => true
  | String c s' => is_space c && all_spaces s'
  end.

(** [l[i]] with Python's negative indices; out of range raises. *)
Definition index {A : Type} (l : list A) (i : Z) : result A :=
  let n := Z.of_nat (length l) in
  let j := if i <? 0 then i + n else i in
  if (j <? 0) || (n <=? j) then Raise IndexError
  else match nth_error l (Z.to_nat j) with
       | Some x => Ok x
       | None => Raise IndexError
       end.

(** Truth value of [None | str]. *)
Definition truthy (o : option string) : bool :=
  match o with
  | Some (String _ _) => true
  | _ => false
  end.

(** [str(n)] for an [int]. *)
Definition str_of_int (n : Z) : string := NilZero.string_of_int (Z.to_int n).

Definition digit_of (c : ascii) : option Z :=
  let n := nat_of_ascii c in
  if Nat.leb 48 n && Nat.leb n 57 then Some (Z.of_nat (n - 48)) else None.

(** Decimal digits, single underscores allowed between two digits. *)
Fixpoint int_digits (acc : Z) (after_digit : bool) (s : string) : option Z :=
  match s with
  | EmptyString => if after_digit then Some acc else None
  | String c s' =>
      match digit_of c with
      | Some d => int_digits (10 * acc + d) true s'
      | None =>
          if Ascii.eqb c "_" && after_digit then int_digits acc false s'
          else None
      end
  end.

(** The whitespace of the C locale: tab to carriage return, and space. *)
Definition is_ascii_space (c : ascii) : bool :=
  let n := nat_of_ascii c in
  (Nat.leb 9 n && Nat.leb n 13) || Nat.eqb n 32.

Fixpoint is_ascii (s : string) : bool :=
  match s with
  | EmptyString => true
  | String c s' => Nat.ltb (nat_of_ascii c) 128 && is_ascii s'
  end.

Fixpoint lstrip_by (sp : ascii -> bool) (s : string) : string :=
  match s with
  | EmptyString => EmptyString
  | String c s' => if sp c then lstrip_by sp s' else s
  end.

Fixpoint rstrip_by (sp : ascii -> bool) (s : string) : string :=
  match s with
  | EmptyString => EmptyString
  | String c s' =>
      match rstrip_by sp s' with
      | EmptyString => if sp c then EmptyString else String c EmptyString
      | r => String c r
      end
  end.

(** What [int] parses once the surrounding whitespace is gone: an ASCII
    string is handed to the C parser as it is, which skips the whitespace
    of the C locale only; in any other string every whitespace character
    is first turned into a space. *)
Definition int_trim (s : string) : string :=
  if is_ascii s then rstrip_by is_ascii_space (lstrip_by is_ascii_space s)
  else strip s.

(** [int(s)] for a [str]: surrounding whitespace, an optional sign, digits. *)
Definition int (s : string) : result Z :=
  let unsigned r :=
    match int_digits 0 false r with
    | Some n => Ok n
    | None => Raise ValueError
    end in
  match int_trim s with
  | String "-" r => rbind (unsigned r) (fun n => Ok (- n))
  | String "+" r => unsigned r
  | r => unsigned r
  end.

(** [max(l)] for a non-empty list: the first of the largest elements. *)
Definition max (l : list Q) : option Q :=
  match l with
  | [] => None
  | x :: t => Some (fold_left (fun m y => if Qle_bool y m then m else y) t x)
  end.

(** [while l and p(l[-1]): l.pop()], one iteration per unit of fuel. *)
Fixpoint pop_while {A : Type} (p : A -> bool) (fuel : nat) (l : list A) : list A :=
  match fuel with
  | O => l
  | S fuel' =>
      match List.last (map Some l) None with
      | Some x => if p x then pop_while p fuel' (removelast l) else l
      | None => l
      end
  end.

End Py.

(** ** Requests *)

Record User : Type := { is_authenticated : bool; pk : Z }.

(** [request.META] restricted to the two entries the throttles read. *)
Record Request : Type := {
  HTTP_X_FORWARDED_FOR : option string;
  REMOTE_ADDR : option string;
  user : User;
  method : string
}.

(** What a throttle identifies a client by: a user id, an address (or
    whatever the headers carried), or [None]. *)
Inductive Ident : Type :=
| IdInt (n : Z)
| IdStr (s : string)
| IdNone.

Definition ident_of_addr (o : option string) : Ident :=
  match o with
  | Some s => IdStr s
  | None => IdNone
  end.

(** ['%s' % ident] *)
Definition str_of_ident (i : Ident) : string :=
  match i with
  | IdInt n => Py.str_of_int n
  | IdStr s => s
  | IdNone => "None"
  end.

(** ** BaseThrottle *)

Module BaseThrottle.

(** [get_ident]; [num_proxies] is [api_settings.NUM_PROXIES]. *)
Definition get_ident (num_proxies : option Z) (request : Request)
  : result (option string) :=
  let xff := HTTP_X_FORWARDED_FOR request in
  let remote_addr := REMOTE_ADDR request in
  match num_proxies with
  | Some n =>
      match xff with
      | None => Ok remote_addr
      | Some h =>
          if n =? 0 then Ok remote_addr
          else
            let addrs := Py.split_on "," h in
            rbind (Py.index addrs (- Z.min n (Z.of_nat (length addrs))))
                  (fun client_addr => Ok (Some (Py.strip client_addr)))
      end
  | None =>
      if Py.truthy xff
      then Ok (option_map (fun h => Py.join (Py.split_ws h)) xff)
      else Ok remote_addr
  end.

End BaseThrottle.

(** ** The cache

    [django.core.cache]: [get] hands out the stored value (or the default),
    [set] replaces it and records the timeout it was given.  Values are
    serialised by the backend, so the list a [get] returns is the caller's
    own: popping from it does not touch the store.  Expiry is the
    backend's own step between calls: an expired key is simply absent
    from the store a call starts from.  Every access is logged in [ops],
    oldest first. *)

Inductive CacheOp : Type :=
| CacheGet (key : string)
| CacheSet (key : string) (value : list Q) (timeout : Z).

Record Cache : Type := {
  store : gmap string (list Q * Z);
  ops : list CacheOp
}.

Definition M (A : Type) : Type := Cache -> result A * Cache.

Definition ret {A : Type} (a : A) : M A := fun c => (Ok a, c).

Definition raise {A : Type} (e : exn) : M A := fun c => (Raise e, c).

Definition bind {A B : Type} (m : M A) (k : A -> M B) : M B :=
  fun c =>
    match m c with
    | (Ok a, c') => k a c'
    | (Raise e, c') => (Raise e, c')
    end.

Definition lift {A : Type} (r : result A) : M A := fun c => (r, c).

Notation "x <- m ;; k" := (bind m (fun x => k))
  (at level 100, m at next level, right associativity).
Notation "m ;;; k" := (bind m (fun _ => k))
  (at level 100, right associativity).

(** The history held under [key], [[]] when there is none. *)
Definition stored (c : Cache) (key : string) : list Q :=
  match store c !! key with
  | Some (h, _) => h
  | None => []
  end.

(** [cache.get(key, [])] *)
Definition cache_get (key : string) : M (list Q) :=
  fun c =>
    (Ok (stored c key),
     {| store := store c; ops := ops c ++ [CacheGet key] |}).

(** [cache.set(key, value, timeout)] *)
Definition cache_set (key : string) (value : list Q) (timeout : Z) : M unit :=
  fun c =>
    (Ok tt,
     {| store := <[key := (value, timeout)]> (store c);
        ops := ops c ++ [CacheSet key value timeout] |}).

(** [entry <= now - duration] *)
Definition expired (now : Q) (duration : Z) (entry : Q) : bool :=
  Qle_bool entry (now - inject_Z duration).

(** [while history and history[-1] <= now - duration: history.pop()] *)
Definition prune (now : Q) (duration : Z) (history : list Q) : list Q :=
  Py.pop_while (expired now duration) (length history) history.

(** [history[-1]] of a non-empty history. *)
Definition oldest (history : list Q) : option Q := List.last (map Some history) None.

(** ** SimpleRateThrottle *)

Module SimpleRateThrottle.

(** [cache_format % {'scope': scope, 'ident': ident}] *)
Definition cache_format (scope : string) (ident : Ident) : string :=
  "throttle_" ++ scope ++ "_" ++ str_of_ident ident.

(** [(self.num_requests, self.duration)] when [self.rate] is not [None]. *)
Record Rate : Type := { num_requests : Z; duration : Z }.

Definition period_seconds (c : ascii) : result Z :=
  if Ascii.eqb c "s" then Ok 1
  else if Ascii.eqb c "m" then Ok 60
  else if Ascii.eqb c "h" then Ok 3600
  else if Ascii.eqb c "d" then Ok 86400
  else Raise KeyError.

(** [parse_rate]; [Ok None] stands for [(None, None)]. *)
Definition parse_rate (rate : option string) : result (option Rate) :=
  match rate with
  | None => Ok None
  | Some r =>
      match Py.split_on "/" r with
      | [num; period] =>
          rbind (Py.int num) (fun n =>
          match period with
          | EmptyString => Raise IndexError
          | String c _ =>
              rbind (period_seconds c) (fun d =>
              Ok (Some {| num_requests := n; duration := d |}))
          end)
      | _ => Raise ValueError
      end
  end.

(** [get_rate]; [scope] is the class attribute, [None] or a name, and
    [class_name] is [self.__class__.__name__]. *)
Definition get_rate (THROTTLE_RATES : gmap string (option string))
    (class_name : string) (scope : option string) : result (option string) :=
  match scope with
  | Some (String c sc') =>
      let sc := String c sc' in
      match THROTTLE_RATES !! sc with
      | Some r => Ok r
      | None =>
          Raise (ImproperlyConfigured
                   ("No default throttle rate set for '" ++ sc ++ "' scope"))
      end
  | _ =>
      Raise (ImproperlyConfigured
               ("You must set either `.scope` or `.rate` for '" ++ class_name
                ++ "' throttle"))
  end.

(** The attributes [allow_request] leaves on the instance once it has
    consulted the cache: [self.key], [self.history], [self.now]. *)
Record Attrs : Type := { key : string; history : list Q; now : Q }.

(** [throttle_success] *)
Definition throttle_success (rate : Rate) (a : Attrs) : M (bool * Attrs) :=
  let a' := {| key := key a; history := now a :: history a; now := now a |} in
  cache_set (key a') (history a') (duration rate) ;;;
  ret (true, a').

(** [throttle_failure] *)
Definition throttle_failure (a : Attrs) : M (bool * Attrs) := ret (false, a).

(** [allow_request]: [rate] is the parsed [self.rate], [cache_key] what
    [get_cache_key(request, view)] returned and [timer] what [self.timer()]
    returns.  The second component is [None] on the two early returns. *)
Definition allow_request (rate : option Rate) (cache_key : option string)
    (timer : Q) : M (bool * option Attrs) :=
  match rate with
  | None => ret (true, None)
  | Some r =>
      match cache_key with
      | None => ret (true, None)
      | Some k =>
          h <- cache_get k ;;
          let a := {| key := k; history := prune timer (duration r) h; now := timer |} in
          res <- (if Z.of_nat (length (history a)) >=? num_requests r
                  then throttle_failure a
                  else throttle_success r a) ;;
          ret (fst res, Some (snd res))
      end
  end.

(** [wait]; [None] is Python's [None]. *)
Definition wait (rate : Rate) (a : Attrs) : option Q :=
  let remaining_duration :=
    match oldest (history a) with
    | Some last => (inject_Z (duration rate) - (now a - last))%Q
    | None => inject_Z (duration rate)
    end in
  let available_requests := num_requests rate - Z.of_nat (length (history a)) + 1 in
  if available_requests <=? 0 then None
  else Some (remaining_duration / inject_Z available_requests)%Q.

(** [n] calls of [allow_request] with the same key, all at the instant
    [timer]; the decisions in call order. *)
Fixpoint burst (rate : option Rate) (cache_key : option string) (timer : Q)
    (n : nat) : M (list bool) :=
  match n with
  | O => ret []
  | S n' =>
      r <- allow_request rate cache_key timer ;;
      rs <- burst rate cache_key timer n' ;;
      ret (fst r :: rs)
  end.

End SimpleRateThrottle.

(** The view, as the throttles see it: [getattr(view, 'throttle_scope',
    None)] and [view.action]. *)
Record View : Type := {
  throttle_scope : option string;
  action : string
}.

(** ** The scope variants of SimpleRateThrottle *)

Module AnonRateThrottle.

Definition scope : string := "anon".

(** [get_cache_key]: [Ok None] when the request is not to be throttled. *)
Definition get_cache_key (num_proxies : option Z) (request : Request)
  : result (option string) :=
  if is_authenticated (user request) then Ok None
  else rbind (BaseThrottle.get_ident num_proxies request) (fun a =>
       Ok (Some (SimpleRateThrottle.cache_format scope (ident_of_addr a)))).

(** [allow_request], inherited: [get_cache_key] is called only once the
    rate is known not to be [None]. *)
Definition allow_request (rate : option SimpleRateThrottle.Rate)
    (num_proxies : option Z) (timer : Q) (request : Request)
  : M (bool * option SimpleRateThrottle.Attrs) :=
  match rate with
  | None => ret (true, None)
  | Some _ =>
      key <- lift (get_cache_key num_proxies request) ;;
      SimpleRateThrottle.allow_request rate key timer
  end.

End AnonRateThrottle.

Module UserRateThrottle.

Definition scope : string := "user".

Definition get_cache_key (num_proxies : option Z) (request : Request)
  : result (option string) :=
  rbind (if is_authenticated (user request) then Ok (IdInt (pk (user request)))
         else rbind (BaseThrottle.get_ident num_proxies request)
                    (fun a => Ok (ident_of_addr a)))
        (fun ident => Ok (Some (SimpleRateThrottle.cache_format scope ident))).

(** [allow_request], inherited. *)
Definition allow_request (rate : option SimpleRateThrottle.Rate)
    (num_proxies : option Z) (timer : Q) (request : Request)
  : M (bool * option SimpleRateThrottle.Attrs) :=
  match rate with
  | None => ret (true, None)
  | Some _ =>
      key <- lift (get_cache_key num_proxies request) ;;
      SimpleRateThrottle.allow_request rate key timer
  end.

End UserRateThrottle.

Module ScopedRateThrottle.

(** [get_cache_key]; [scope] is the view's [throttle_scope]. *)
Definition get_cache_key (scope : string) (num_proxies : option Z)
    (request : Request) : result (option string) :=
  rbind (if is_authenticated (user request) then Ok (IdInt (pk (user request)))
         else rbind (BaseThrottle.get_ident num_proxies request)
                    (fun a => Ok (ident_of_addr a)))
        (fun ident => Ok (Some (SimpleRateThrottle.cache_format scope ident))).

(** [allow_request]: the scope is read off the view, the rate looked up
    and parsed at each call. *)
Definition allow_request (THROTTLE_RATES : gmap string (option string))
    (num_proxies : option Z) (timer : Q) (request : Request) (view : View)
  : M (bool * option SimpleRateThrottle.Attrs) :=
  match throttle_scope view with
  | Some (String c sc') =>
      let scope := String c sc' in
      rate <- lift (SimpleRateThrottle.get_rate THROTTLE_RATES
                      "ScopedRateThrottle" (Some scope)) ;;
      parsed <- lift (SimpleRateThrottle.parse_rate rate) ;;
      match parsed with
      | None => ret (true, None)
      | Some _ =>
          key <- lift (get_cache_key scope num_proxies request) ;;
          SimpleRateThrottle.allow_request parsed key timer
      end
  | _ => ret (true, None)
  end.

End ScopedRateThrottle.

Module ThrottleByActionMixin.

(** [allow_request]; [super_allow_request] is the method of the class
    the mixin is laid over. *)
Definition allow_request {A : Type} (throttled_actions : list string)
    (view : View) (super_allow_request : M (bool * option A))
  : M (bool * option A) :=
  if existsb (String.eqb (action view)) throttled_actions
  then super_allow_request
  else ret (true, None).

End ThrottleByActionMixin.

Module GlobalThrottlingMixin.

(** [get_cache_key]; [get_ip] is [ipware.ip.get_ip]. *)
Definition get_cache_key (get_ip : Request -> option string) (scope : string)
    (request : Request) : string :=
  SimpleRateThrottle.cache_format scope (ident_of_addr (get_ip request)).

End GlobalThrottlingMixin.

Definition empty_cache : Cache := {| store := ∅; ops := [] |}.

(** ** CommonThrottle *)

(** One entry of [settings.REST_FRAMEWORK['DEFAULT_THROTTLE_WHITELIST']]:
    an [int], a [str], or an object of another type. *)
Inductive WhitelistEntry : Type :=
| WInt (n : Z)
| WStr (s : string)
| WOther.

(** What [THROTTLE_RATES] holds for a scope: [None], one rate string, a
    list of rate strings (or [None]s), or an object of another type. *)
Inductive RateConf : Type :=
| RNone
| RStr (s : string)
| RList (l : list (option string))
| ROther.

(** The two settings the throttle reads; both are taken to be set. *)
Record Settings : Type := {
  THROTTLE_RATES : gmap string RateConf;
  DEFAULT_THROTTLE_WHITELIST : list WhitelistEntry
}.

Definition dquote : string := String (ascii_of_nat 34) EmptyString.

Module CommonThrottle.

(** The tuple [(rate, num_requests, duration)] of [parse_rate]. *)
Record Rate : Type := {
  rate_name : string;
  rate_num_requests : Z;
  rate_duration : Z
}.

(** One entry of [history_writes]. *)
Record HistoryWrite : Type := {
  hw_key : string;
  hw_history : list Q;
  hw_rate_duration : Z
}.

(** [cache_format % {"scope": scope, "ident": ident, "rate": rate}] *)
Definition get_cache_key (ident : Ident) (scope : string) (rate : string) : string :=
  "throtte_" ++ scope ++ "_" ++ rate ++ "_" ++ str_of_ident ident.

(** [parse_rate] *)
Definition parse_rate (rate : option string) : result (option Rate) :=
  match rate with
  | None => Ok None
  | Some r =>
      match Py.split_on "/" r with
      | [num; period] =>
          rbind (Py.int num) (fun n =>
          match period with
          | EmptyString => Raise IndexError
          | String c _ =>
              rbind (SimpleRateThrottle.period_seconds c) (fun d =>
              Ok (Some {| rate_name := r; rate_num_requests := n;
                          rate_duration := d |}))
          end)
      | _ => Raise ValueError
      end
  end.

(** [list(map(self.parse_rate, rates))] *)
Fixpoint parse_rates (rates : list (option string)) : result (list (option Rate)) :=
  match rates with
  | [] => Ok []
  | r :: rest =>
      rbind (parse_rate r) (fun x =>
      rbind (parse_rates rest) (fun xs => Ok (x :: xs)))
  end.

(** [get_rates] *)
Definition get_rates (cfg : Settings) (scope : string)
  : result (list (option Rate)) :=
  match THROTTLE_RATES cfg !! scope with
  | None =>
      Raise (ImproperlyConfigured
               ("No default throttle rate set for " ++ dquote ++ scope
                ++ dquote ++ " scope"))
  | Some RNone => Ok []
  | Some (RStr r) => rbind (parse_rate (Some r)) (fun x => Ok [x])
  | Some (RList l) => parse_rates l
  | Some ROther =>
      Raise (ImproperlyConfigured
               ("No valid throttle rate set for " ++ dquote ++ scope
                ++ dquote ++ " scope"))
  end.

(** [get_scope] *)
Definition get_scope (request : Request) : string :=
  let scope_prefix := if is_authenticated (user request) then "user" else "anon" in
  let scope_sufix :=
    if existsb (String.eqb (method request)) ["POST"; "PUT"; "PATCH"; "DELETE"]
    then "write" else "read" in
  scope_prefix ++ "-" ++ scope_sufix.

(** [wait_time] *)
Definition wait_time (history : list Q) (rate : Rate) (now : Q) : Q :=
  let remaining_duration :=
    match oldest history with
    | Some last => (inject_Z (rate_duration rate) - (now - last))%Q
    | None => inject_Z (rate_duration rate)
    end in
  let available_requests := rate_num_requests rate - Z.of_nat (length history) + 1 in
  if available_requests <=? 0 then remaining_duration
  else (remaining_duration / inject_Z available_requests)%Q.

(** What the first loop of [allow_request] works out for one tier, read
    off the cache [c] it starts from. *)
Definition tier_key (ident : Ident) (scope : string) (t : Rate) : string :=
  get_cache_key ident scope (rate_name t).

Definition tier_history (ident : Ident) (scope : string) (now : Q) (c : Cache)
    (t : Rate) : list Q :=
  prune now (rate_duration t) (stored c (tier_key ident scope t)).

Definition tier_denies (ident : Ident) (scope : string) (now : Q) (c : Cache)
    (t : Rate) : bool :=
  Z.of_nat (length (tier_history ident scope now c t)) >=? rate_num_requests t.

Definition tier_write (ident : Ident) (scope : string) (now : Q) (c : Cache)
    (t : Rate) : HistoryWrite :=
  {| hw_key := tier_key ident scope t;
     hw_history := tier_history ident scope now c t;
     hw_rate_duration := rate_duration t |}.

(** The store once every entry of [history_writes] has been written. *)
Definition write_all (now : Q) (hws : list HistoryWrite)
    (m : gmap string (list Q * Z)) : gmap string (list Q * Z) :=
  fold_left
    (fun m hw => <[hw_key hw := (now :: hw_history hw, hw_rate_duration hw)]> m)
    hws m.

Section External.

(** [ipware.ip.get_ip]: the client address it settles on, or [None]. *)
Variable get_ip : Request -> option string.

(** [netaddr.all_matching_cidrs(ident, cidrs)]: the matching networks, or
    [None] when it raises [AddrFormatError] or [ValueError]. *)
Variable all_matching_cidrs : Ident -> list string -> option (list string).

(** [get_ident] *)
Definition get_ident (request : Request) : Ident :=
  if is_authenticated (user request) then IdInt (pk (user request))
  else ident_of_addr (get_ip request).

(** One round of the loop of [is_whitelisted]: does this entry return
    [True]? *)
Definition entry_matches (ident : Ident) (whitelisted : WhitelistEntry) : bool :=
  match whitelisted with
  | WInt n =>
      match ident with
      | IdInt m => n =? m
      | _ => false
      end
  | WStr s =>
      match all_matching_cidrs ident [s] with
      | Some (_ :: _) => true
      | Some [] => false
      | None => false
      end
  | WOther => false
  end.

(** [is_whitelisted] *)
Fixpoint is_whitelisted_in (ident : Ident) (entries : list WhitelistEntry) : bool :=
  match entries with
  | [] => false
  | whitelisted :: rest =>
      if entry_matches ident whitelisted then true
      else is_whitelisted_in ident rest
  end.

Definition is_whitelisted (cfg : Settings) (ident : Ident) : bool :=
  is_whitelisted_in ident (DEFAULT_THROTTLE_WHITELIST cfg).

(** The first loop of [allow_request], from the tier it has reached with
    the [waits] and [history_writes] collected so far. *)
Fixpoint check_tiers (ident : Ident) (scope : string) (now : Q)
    (rates : list (option Rate)) (waits : list Q)
    (history_writes : list HistoryWrite) : M (list Q * list HistoryWrite) :=
  match rates with
  | [] => ret (waits, history_writes)
  | None :: _ => raise TypeError
  | Some rate :: rest =>
      let key := get_cache_key ident scope (rate_name rate) in
      h <- cache_get key ;;
      let history := prune now (rate_duration rate) h in
      let waits' :=
        if Z.of_nat (length history) >=? rate_num_requests rate
        then waits ++ [wait_time history rate now] else waits in
      check_tiers ident scope now rest waits'
        (history_writes ++
           [{| hw_key := key; hw_history := history;
               hw_rate_duration := rate_duration rate |}])
  end.

(** The second loop of [allow_request]. *)
Fixpoint write_histories (now : Q) (history_writes : list HistoryWrite) : M unit :=
  match history_writes with
  | [] => ret tt
  | hw :: rest =>
      cache_set (hw_key hw) (now :: hw_history hw) (hw_rate_duration hw) ;;;
      write_histories now rest
  end.

(** [allow_request]; [timer] is what [self.timer()] returns if called.
    The second component is the value given to [self._wait], if any. *)
Definition allow_request (cfg : Settings) (timer : Q) (request : Request)
  : M (bool * option Q) :=
  let scope := get_scope request in
  let ident := get_ident request in
  rates <- lift (get_rates cfg scope) ;;
  if is_whitelisted cfg ident then ret (true, None)
  else
    match rates with
    | [] => ret (true, None)
    | _ :: _ =>
        let now := timer in
        r <- check_tiers ident scope now rates [] [] ;;
        match Py.max (fst r) with
        | Some w => ret (false, Some w)
        | None =>
            write_histories now (snd r) ;;;
            ret (true, None)
        end
    end.

End External.

End CommonThrottle.

(** ** Scenario data

    An IPv4-only stand-in for the two external libraries, so that the
    throttles can be run on concrete requests: dotted quads, [a.b.c.d/n]
    networks, integers read as 32-bit addresses. *)

Module Netaddr4.

Fixpoint digits (acc : Z) (s : string) : option Z :=
  match s with
  | EmptyString => Some acc
  | String c s' =>
      match Py.digit_of c with
      | Some d => digits (10 * acc + d) s'
      | None => None
      end
  end.

Definition number (s : string) : option Z :=
  match s with
  | EmptyString => None
  | _ => digits 0 s
  end.

Definition address (s : string) : option Z :=
  match map number (Py.split_on "." s) with
  | [Some a; Some b; Some c; Some d] =>
      if forallb (fun x => x <=? 255) [a; b; c; d]
      then Some (((a * 256 + b) * 256 + c) * 256 + d)
      else None
  | _ => None
  end.

Definition network (s : string) : option (Z * Z) :=
  match Py.split_on "/" s with
  | [a] => option_map (fun x => (x, 32)) (address a)
  | [a; n] =>
      match address a, number n with
      | Some x, Some k => if k <=? 32 then Some (x, k) else None
      | _, _ => None
      end
  | _ => None
  end.

Definition ip_of_ident (i : Ident) : option Z :=
  match i with
  | IdStr s => address s
  | IdInt n => if (0 <=? n) && (n <? 2 ^ 32) then Some n else None
  | IdNone => None
  end.

Definition all_matching_cidrs (ident : Ident) (cidrs : list string)
  : option (list string) :=
  match ip_of_ident ident with
  | None => None
  | Some ip =>
      fold_right
        (fun c acc =>
           match network c, acc with
           | Some (net, k), Some l =>
               Some (if Z.shiftr ip (32 - k) =? Z.shiftr net (32 - k)
                     then c :: l else l)
           | _, _ => None
           end)
        (Some []) cidrs
  end.

Definition get_ip (request : Request) : option string := REMOTE_ADDR request.

(** [ip in network]: the address agrees with the network on its prefix. *)
Definition contains (n : Z * Z) (ip : Z) : bool :=
  Z.shiftr ip (32 - snd n) =? Z.shiftr (fst n) (32 - snd n).

End Netaddr4.

Definition anonymous : User := {| is_authenticated := false; pk := 0 |}.

Definition member (id : Z) : User := {| is_authenticated := true; pk := id |}.

Definition req_xff (h : string) (addr : string) : Request :=
  {| HTTP_X_FORWARDED_FOR := Some h; REMOTE_ADDR := Some addr;
     user := anonymous; method := "GET" |}.

Definition req_from (addr : string) (u : User) (m : string) : Request :=
  {| HTTP_X_FORWARDED_FOR := None; REMOTE_ADDR := Some addr;
     user := u; method := m |}.

Definition cache_of (entries : list (string * (list Q * Z))) : Cache :=
  {| store := list_to_map entries; ops := [] |}.

(** Two tiers for anonymous reads, and a whitelist with a user id, a
    network, a single address and a malformed entry. *)
Definition demo_settings : Settings :=
  {| THROTTLE_RATES :=
       list_to_map [("anon-read", RList [Some "2/s"; Some "3/min"]);
                    ("anon-write", RNone);
                    ("user-read", RList []);
                    ("user-write", RStr "1/day")];
     DEFAULT_THROTTLE_WHITELIST :=
       [WInt 7; WStr "10.0.0.0/8"; WStr "192.168.1.5"; WStr "not-a-network"] |}.

Definition no_rates : Settings :=
  {| THROTTLE_RATES := ∅; DEFAULT_THROTTLE_WHITELIST := [WInt 7] |}.

Definition demo_allow_request :=
  CommonThrottle.allow_request Netaddr4.get_ip Netaddr4.all_matching_cidrs.

Definition demo_key (addr rate : string) : string :=
  CommonThrottle.get_cache_key (IdStr addr) "anon-read" rate.

(** An anonymous read from 11.1.2.3 at [t = 100]: the "2/s" tier has one
    entry and would admit, the "3/min" tier is full. *)
Definition tier_2s : CommonThrottle.Rate :=
  {| CommonThrottle.rate_name := "2/s"; CommonThrottle.rate_num_requests := 2;
     CommonThrottle.rate_duration := 1 |}.

Definition tier_3min : CommonThrottle.Rate :=
  {| CommonThrottle.rate_name := "3/min"; CommonThrottle.rate_num_requests := 3;
     CommonThrottle.rate_duration := 60 |}.

Definition busy_cache (addr : string) : Cache :=
  cache_of [(demo_key addr "2/s", ([100]%Q, 1));
            (demo_key addr "3/min", ([100; 99; 50]%Q, 60))].

Definition quiet_cache (addr : string) : Cache :=
  cache_of [(demo_key addr "2/s", ([100]%Q, 1));
            (demo_key addr "3/min", ([99; 50; 30]%Q, 60))].

(** Conditions under which two identities render differently unless they
    are equal, and under which a template field cannot run into the next. *)
Definition same_kind (i i' : Ident) : bool :=
  match i, i' with
  | IdInt _, IdInt _ => true
  | IdStr _, IdStr _ => true
  | IdNone, IdNone => true
  | _, _ => false
  end.

Fixpoint no_underscore (s : string) : bool :=
  match s with
  | EmptyString => true
  | String c s' => negb (Ascii.eqb c "_") && no_underscore s'
  end.

(** The "2/min" scenario: timestamps 0 and 10 stored under one key. *)
Definition two_per_min : SimpleRateThrottle.Rate :=
  {| SimpleRateThrottle.num_requests := 2; SimpleRateThrottle.duration := 60 |}.

Definition key_K : string := SimpleRateThrottle.cache_format "anon" (IdStr "1.2.3.4").

Definition cache_0_10 : Cache := cache_of [(key_K, ([10; 0]%Q, 60))].

(** A history longer than the rate allows: two entries under "1 per 10 s". *)
Definition one_per_ten : SimpleRateThrottle.Rate :=
  {| SimpleRateThrottle.num_requests := 1; SimpleRateThrottle.duration := 10 |}.

Definition cache_0_5 : Cache := cache_of [(key_K, ([5; 0]%Q, 10))].

Definition attrs_at (h : list Q) (t : Q) : SimpleRateThrottle.Attrs :=
  {| SimpleRateThrottle.key := key_K; SimpleRateThrottle.history := h;
     SimpleRateThrottle.now := t |}.

(** ** Sequences of requests *)

(** Successive calls of [SimpleRateThrottle.allow_request] on one key, one
    per instant of [timers]; the decisions in call order. *)
Fixpoint serve (rate : option SimpleRateThrottle.Rate) (cache_key : option string)
    (timers : list Q) : M (list bool) :=
  match timers with
  | [] => ret []
  | timer :: rest =>
      r <- SimpleRateThrottle.allow_request rate cache_key timer ;;
      rs <- serve rate cache_key rest ;;
      ret (fst r :: rs)
  end.

(** The instants of [timers] whose decision was [True], most recent
    first. *)
Definition admitted (timers : list Q) (decisions : list bool) : list Q :=
  rev (map fst (List.filter snd (combine timers decisions))).

(** [entry > now - duration]: the entry is still inside the window. *)
Definition live (now : Q) (duration : Z) (entry : Q) : bool :=
  negb (expired now duration entry).

(** Every instant of [adm] (most recent first), counted with the earlier
    instants less than [duration] before it, stays within [n]. *)
Fixpoint within_rate (n duration : Z) (adm : list Q) : Prop :=
  match adm with
  | [] => True
  | t :: older =>
      Z.of_nat (length (List.filter (live t duration) (t :: older))) <= n
      /\ within_rate n duration older
  end.

(** Most recent first. *)
Definition recent_first (history : list Q) : Prop :=
  StronglySorted (fun a b => (b <= a)%Q) history.

(** Instants in the order of the clock. *)
Definition chronological (timers : list Q) : Prop :=
  StronglySorted Qle timers.

(** The instants of [adm] (most recent first) that are inside the window
    ending at the most recent one. *)
Definition current_window (duration : Z) (adm : list Q) : list Q :=
  match adm with
  | [] => []
  | t :: _ => List.filter (live t duration) adm
  end.

(** Settings with a [None] among the tiers of anonymous reads. *)
Definition none_tier_settings : Settings :=
  {| THROTTLE_RATES := list_to_map [("anon-read", RList [Some "2/s"; None])];
     DEFAULT_THROTTLE_WHITELIST := [WInt 7] |}.

(** ** Vocabulary on strings *)

(** No whitespace character in [s]. *)
Fixpoint no_space (s : string) : bool :=
  match s with
  | EmptyString => true
  | String c s' => negb (Py.is_space c) && no_space s'
  end.

(** The character [c] does not occur in [s]. *)
Fixpoint lacks (c : ascii) (s : string) : bool :=
  match s with
  | EmptyString => true
  | String x s' => negb (Ascii.eqb x c) && lacks c s'
  end.

(** How often [c] occurs in [s]. *)
Fixpoint occurrences (c : ascii) (s : string) : nat :=
  match s with
  | EmptyString => O
  | String x s' => (if Ascii.eqb x c then 1 else 0) + occurrences c s'
  end.

(** ** tests/factories.py *)

Module Factory.

(** The [_SEQUENCE] attributes the classes hold themselves, by class
    name; [Factory] holds 1 when the module is loaded, a subclass holds
    none until it is assigned one. *)
Definition loaded : gmap string Z := {[ "Factory" := 1 ]}.

(** [cls._SEQUENCE], looked up along [cls.__mro__]: the attribute of the
    first class that holds one, [None] for [AttributeError]. *)
Fixpoint get_SEQUENCE (attrs : gmap string Z) (mro : list string) : option Z :=
  match mro with
  | [] => None
  | c :: rest =>
      match attrs !! c with
      | Some v => Some v
      | None => get_SEQUENCE attrs rest
      end
  end.

(** [_setup_next_sequence] on the class [cls] with the further classes
    [bases] in its [__mro__]: [cls._SEQUENCE += 1] reads along the MRO and
    writes the attribute of [cls] itself; the value returned and the
    attributes afterwards. *)
Definition setup_next_sequence (cls : string) (bases : list string)
    (attrs : gmap string Z) : option Z * gmap string Z :=
  match get_SEQUENCE attrs (cls :: bases) with
  | Some v => (Some (v + 1), <[cls := v + 1]> attrs)
  | None => (None, attrs)
  end.

(** Successive calls, each on a class given with its bases; the values
    in call order and the attributes afterwards. *)
Fixpoint next_sequences (calls : list (string * list string))
    (attrs : gmap string Z) : list (option Z) * gmap string Z :=
  match calls with
  | [] => ([], attrs)
  | (cls, bases) :: rest =>
      let (v, attrs1) := setup_next_sequence cls bases attrs in
      let (vs, attrs2) := next_sequences rest attrs1 in
      (v :: vs, attrs2)
  end.

End Factory.

Module UserFactory.

(** [factory.Sequence(lambda n: "user{}".format(n))] *)
Definition username (n : Z) : string := "user" ++ Py.str_of_int n.

(** [factory.LazyAttribute(lambda obj: '%s@email.com' % obj.username)] *)
Definition email (username : string) : string := username ++ "@email.com".

End UserFactory.

(** ** tweets2cash/auth/services.py: the plugin registry *)

Module AuthServices.

Section Plugins.

(** Login functions are values the registry stores and hands back. *)
Variable login_func_t : Type.

(** The dict stored under a plugin's name. *)
Record Plugin : Type := { login_func : login_func_t }.

(** [register_auth_plugin]; the module-level dict [auth_plugins] is
    passed in and handed back. *)
Definition register_auth_plugin (name : string) (f : login_func_t)
    (auth_plugins : gmap string Plugin) : gmap string Plugin :=
  <[name := {| login_func := f |}]> auth_plugins.

(** [get_auth_plugins] *)
Definition get_auth_plugins (auth_plugins : gmap string Plugin)
  : gmap string Plugin := auth_plugins.

(** Registrations in the order of the list. *)
Definition register_all (l : list (string * login_func_t))
    (auth_plugins : gmap string Plugin) : gmap string Plugin :=
  fold_left (fun m p => register_auth_plugin (fst p) (snd p) m) l auth_plugins.

End Plugins.

End AuthServices.

(** Views and rate tables for the per-view throttle. *)
Definition view_of (sc : option string) : View :=
  {| throttle_scope := sc; action := "list" |}.

Definition scoped_rates : gmap string (option string) :=
  list_to_map [("uploads", Some "2/min"); ("search", None)].

(** Successive calls of [CommonThrottle.allow_request] for one request,
    one per instant of [timers]; the decisions in call order. *)
Fixpoint common_serve (get_ip : Request -> option string)
    (all_matching_cidrs : Ident -> list string -> option (list string))
    (cfg : Settings) (request : Request) (timers : list Q) : M (list bool) :=
  match timers with
  | [] => ret []
  | timer :: rest =>
      r <- CommonThrottle.allow_request get_ip all_matching_cidrs cfg timer request ;;
      rs <- common_serve get_ip all_matching_cidrs cfg request rest ;;
      ret (fst r :: rs)
  end.

(** User 167772161, whose id read as an address is 10.0.0.1, with the
    one write a day of authenticated users already spent. *)
Definition spent_cache : Cache :=
  cache_of [(CommonThrottle.get_cache_key (IdInt 167772161) "user-write" "1/day",
             ([99]%Q, 86400))].

(** The demonstration rates with nobody whitelisted. *)
Definition unlisted_settings : Settings :=
  {| THROTTLE_RATES := THROTTLE_RATES demo_settings;
     DEFAULT_THROTTLE_WHITELIST := [] |}.

(** * Properties *)

(** ** Python primitives *)

Lemma split_on_length (sep : ascii) (s : string) :
  (1 <= length (Py.split_on sep s))%nat.
Proof.
  induction s as [|c s IH]; simpl; [lia|].
  destruct (Ascii.eqb c sep); simpl; [lia|].
  destruct (Py.split_on sep s); simpl in *; lia.
Qed.

Lemma append_cons (c : ascii) (x y : string) :
  (String c x ++ y = String c (x ++ y))%string.
Proof. reflexivity. Qed.

Lemma append_empty_l (y : string) : (EmptyString ++ y = y)%string.
Proof. reflexivity. Qed.

Lemma append_empty_r (x : string) : (x ++ EmptyString = x)%string.
Proof.
  induction x as [|c x IH]; [reflexivity|].
  rewrite append_cons, IH. reflexivity.
Qed.

Lemma join_nil : Py.join [] = EmptyString.
Proof. reflexivity. Qed.

Lemma join_cons (x : string) (l : list string) : Py.join (x :: l) = (x ++ Py.join l)%string.
Proof.
  unfold Py.join. destruct l as [|y l]; simpl.
  - symmetry. apply append_empty_r.
  - reflexivity.
Qed.

(** [''.join(s.split())] removes every whitespace character and nothing
    else. *)
Lemma join_split_ws (s : string) : Py.join (Py.split_ws s) = Py.drop_spaces s.
Proof.
  induction s as [|c s IH]; [reflexivity|].
  cbn [Py.split_ws Py.drop_spaces].
  destruct (Py.is_space c) eqn:Hc; [exact IH|].
  destruct s as [|c' s']; [reflexivity|].
  destruct (Py.is_space c') eqn:Hc'.
  - rewrite join_cons, IH. reflexivity.
  - destruct (Py.split_ws (String c' s')) as [|hd tl] eqn:Hs.
    + rewrite <- IH. reflexivity.
    + rewrite join_cons. rewrite join_cons in IH.
      rewrite append_cons, IH. reflexivity.
Qed.

(** A negative index [-m] with [1 <= m <= len(l)] reads position
    [len(l) - m]. *)
Lemma index_from_end {A : Type} (l : list A) (m : Z) :
  1 <= m <= Z.of_nat (length l) ->
  exists x, nth_error l (Z.to_nat (Z.of_nat (length l) - m)) = Some x
            /\ Py.index l (- m) = Ok x.
Proof.
  intros Hm. unfold Py.index.
  assert (Hneg : (- m <? 0) = true) by (apply Z.ltb_lt; lia).
  rewrite Hneg.
  assert (Hlo : (- m + Z.of_nat (length l) <? 0) = false) by (apply Z.ltb_ge; lia).
  assert (Hhi : (Z.of_nat (length l) <=? - m + Z.of_nat (length l)) = false)
    by (apply Z.leb_gt; lia).
  rewrite Hlo, Hhi. simpl.
  replace (- m + Z.of_nat (length l)) with (Z.of_nat (length l) - m) by lia.
  destruct (nth_error l (Z.to_nat (Z.of_nat (length l) - m))) as [x|] eqn:Hx.
  - exists x. split; reflexivity.
  - apply nth_error_None in Hx. lia.
Qed.

(** [lstrip] removes a run of whitespace and stops at the first other
    character. *)
Lemma lstrip_spec (s : string) :
  exists pre,
    s = (pre ++ Py.lstrip s)%string /\ Py.all_spaces pre = true
    /\ forall c r, Py.lstrip s = String c r -> Py.is_space c = false.
Proof.
  induction s as [|c s (pre & Heq & Hpre & Hfirst)].
  - exists EmptyString. repeat split. discriminate.
  - cbn [Py.lstrip]. destruct (Py.is_space c) eqn:Hc.
    + exists (String c pre). rewrite append_cons, <- Heq.
      split; [reflexivity|]. split; [|exact Hfirst].
      cbn [Py.all_spaces]. now rewrite Hc, Hpre.
    + exists EmptyString. split; [reflexivity|]. split; [reflexivity|].
      intros c' r [= <- _]. exact Hc.
Qed.

Lemma snoc_not_empty (r : string) (c : ascii) :
  (r ++ String c EmptyString)%string <> EmptyString.
Proof. destruct r; [|rewrite append_cons]; discriminate. Qed.

(** [rstrip] does the same from the end. *)
Lemma rstrip_spec (s : string) :
  exists post,
    s = (Py.rstrip s ++ post)%string /\ Py.all_spaces post = true
    /\ forall r c, Py.rstrip s = (r ++ String c EmptyString)%string ->
                   Py.is_space c = false.
Proof.
  induction s as [|c s (post & Heq & Hpost & Hlast)].
  - exists EmptyString. repeat split.
    intros r c H. symmetry in H. now apply snoc_not_empty in H.
  - cbn [Py.rstrip]. destruct (Py.rstrip s) as [|a r0] eqn:Hr.
    + rewrite append_empty_l in Heq. subst post.
      destruct (Py.is_space c) eqn:Hc.
      * exists (String c s). split; [reflexivity|]. split.
        -- cbn [Py.all_spaces]. now rewrite Hc, Hpost.
        -- intros r c' H. symmetry in H. now apply snoc_not_empty in H.
      * exists s. split; [reflexivity|]. split; [exact Hpost|].
        intros [|a r] c' H.
        -- rewrite append_empty_l in H. now injection H as <-.
        -- rewrite append_cons in H. injection H as _ H.
           symmetry in H. now apply snoc_not_empty in H.
    + exists post. split; [rewrite append_cons, <- Heq; reflexivity|].
      split; [exact Hpost|].
      intros [|b r] c' H.
      * rewrite append_empty_l in H. discriminate.
      * rewrite append_cons in H. injection H as _ H. now apply (Hlast r c').
Qed.

(** [strip] cuts whitespace, and only whitespace, from both ends: what
    is left neither starts nor ends with a whitespace character. *)
Lemma strip_spec (s : string) :
  exists pre post,
    s = (pre ++ Py.strip s ++ post)%string
    /\ Py.all_spaces pre = true /\ Py.all_spaces post = true
    /\ (forall c r, Py.strip s = String c r -> Py.is_space c = false)
    /\ (forall r c, Py.strip s = (r ++ String c EmptyString)%string ->
                    Py.is_space c = false).
Proof.
  destruct (lstrip_spec s) as (pre & Heq & Hpre & Hfirst).
  destruct (rstrip_spec (Py.lstrip s)) as (post & Heq' & Hpost & Hlast).
  exists pre, post. unfold Py.strip.
  split; [rewrite <- Heq'; exact Heq|].
  split; [exact Hpre|]. split; [exact Hpost|]. split; [|exact Hlast].
  intros c r Hs. rewrite Hs, append_cons in Heq'. now apply (Hfirst c _ Heq').
Qed.

(** ** Pruning *)

Lemma oldest_nil : oldest [] = None.
Proof. reflexivity. Qed.

Lemma oldest_snoc (l : list Q) (x : Q) : oldest (l ++ [x]) = Some x.
Proof. unfold oldest. rewrite map_app. simpl. apply last_last. Qed.

Lemma oldest_last (l : list Q) (d : Q) :
  l <> [] -> oldest l = Some (List.last l d).
Proof.
  destruct l as [|x l _] using rev_ind; [congruence|].
  intros _. rewrite oldest_snoc, last_last. reflexivity.
Qed.

Lemma prune_nil (now : Q) (d : Z) : prune now d [] = [].
Proof. reflexivity. Qed.

(** One turn of the loop: look at the last entry, pop it if it expired. *)
Lemma prune_snoc (now : Q) (d : Z) (l : list Q) (x : Q) :
  prune now d (l ++ [x]) = if expired now d x then prune now d l else l ++ [x].
Proof.
  unfold prune. rewrite length_app. simpl length.
  replace (length l + 1)%nat with (S (length l)) by lia.
  cbn [Py.pop_while]. fold (oldest (l ++ [x])). rewrite oldest_snoc.
  rewrite removelast_last. reflexivity.
Qed.

Lemma expired_iff (now : Q) (d : Z) (e : Q) :
  expired now d e = true <-> (e <= now - inject_Z d)%Q.
Proof. unfold expired. apply Qle_bool_iff. Qed.

(** What the loop leaves: the history minus a tail of expired entries,
    its last entry (if any) still inside the window. *)
Lemma prune_spec (now : Q) (d : Z) (h : list Q) :
  exists dropped,
    h = prune now d h ++ dropped
    /\ Forall (fun e => (e <= now - inject_Z d)%Q) dropped
    /\ forall e, oldest (prune now d h) = Some e -> ~ (e <= now - inject_Z d)%Q.
Proof.
  induction h as [|x h IH] using rev_ind.
  - exists []. rewrite prune_nil. repeat split; [constructor | discriminate].
  - rewrite prune_snoc. destruct (expired now d x) eqn:Hx.
    + destruct IH as (dropped & Heq & Hall & Hlast).
      exists (dropped ++ [x]). repeat split.
      * rewrite app_assoc, <- Heq. reflexivity.
      * apply Forall_app. split; [exact Hall|].
        constructor; [now apply expired_iff | constructor].
      * exact Hlast.
    + exists []. rewrite app_nil_r. repeat split; [constructor|].
      intros e He. rewrite oldest_snoc in He. injection He as <-.
      rewrite <- expired_iff, Hx. discriminate.
Qed.

Lemma prune_length (now : Q) (d : Z) (h : list Q) :
  (length (prune now d h) <= length h)%nat.
Proof.
  destruct (prune_spec now d h) as (dropped & Heq & _).
  rewrite Heq at 2. rewrite length_app. lia.
Qed.

(** A history whose last entry is still inside the window is left alone. *)
Lemma prune_fresh (now : Q) (d : Z) (h : list Q) (e : Q) :
  oldest h = Some e -> expired now d e = false -> prune now d h = h.
Proof.
  destruct h as [|x h _] using rev_ind; [discriminate|].
  rewrite oldest_snoc. intros [= ->] He. rewrite prune_snoc, He. reflexivity.
Qed.

(** Once the last entry has expired it is gone: the pruned history is
    shorter. *)
Lemma prune_expired (now : Q) (d : Z) (h : list Q) (e : Q) :
  oldest h = Some e -> expired now d e = true ->
  (length (prune now d h) < length h)%nat.
Proof.
  destruct h as [|x h _] using rev_ind; [discriminate|].
  rewrite oldest_snoc. intros [= ->] He. rewrite prune_snoc, He.
  pose proof (prune_length now d h). rewrite length_app. simpl. lia.
Qed.

Lemma prune_repeat (now : Q) (d : Z) (n : nat) :
  0 < d -> prune now d (repeat now n) = repeat now n.
Proof.
  intros Hd. destruct n as [|n]; [reflexivity|].
  apply prune_fresh with (e := now).
  - change (repeat now (S n)) with (now :: repeat now n).
    rewrite repeat_cons. apply oldest_snoc.
  - destruct (expired now d now) eqn:He; [|reflexivity].
    apply expired_iff in He.
    assert (0 < inject_Z d)%Q by (unfold Qlt; simpl; lia).
    lra.
Qed.

(** ** SimpleRateThrottle.allow_request *)

Section SingleTier.

Import SimpleRateThrottle.

Variables (r : Rate) (k : string) (timer : Q).

Lemma geb_true (a b : Z) : (a >=? b) = true <-> b <= a.
Proof. rewrite Z.geb_leb. apply Z.leb_le. Qed.

Lemma geb_false (a b : Z) : (a >=? b) = false <-> a < b.
Proof. rewrite Z.geb_leb. apply Z.leb_gt. Qed.

Lemma allow_request_deny (c : Cache) :
  let p := prune timer (duration r) (stored c k) in
  num_requests r <= Z.of_nat (length p) ->
  allow_request (Some r) (Some k) timer c
  = (Ok (false, Some {| key := k; history := p; now := timer |}),
     {| store := store c; ops := ops c ++ [CacheGet k] |}).
Proof.
  intros p Hp. apply geb_true in Hp.
  unfold allow_request, bind, cache_get. cbn [history].
  fold p. rewrite Hp. reflexivity.
Qed.

Lemma allow_request_admit (c : Cache) :
  let p := prune timer (duration r) (stored c k) in
  Z.of_nat (length p) < num_requests r ->
  allow_request (Some r) (Some k) timer c
  = (Ok (true, Some {| key := k; history := timer :: p; now := timer |}),
     {| store := <[k := (timer :: p, duration r)]> (store c);
        ops := ops c ++ [CacheGet k; CacheSet k (timer :: p) (duration r)] |}).
Proof.
  intros p Hp. apply geb_false in Hp.
  unfold allow_request, bind, cache_get. cbn [history].
  fold p. rewrite Hp.
  unfold throttle_success, bind, cache_set, ret. cbn.
  rewrite <- app_assoc. reflexivity.
Qed.

Lemma burst_step (n : nat) (c : Cache) :
  burst (Some r) (Some k) timer (S n) c
  = match allow_request (Some r) (Some k) timer c with
    | (Ok d, c') =>
        match burst (Some r) (Some k) timer n c' with
        | (Ok ds, c'') => (Ok (fst d :: ds), c'')
        | (Raise e, c'') => (Raise e, c'')
        end
    | (Raise e, c') => (Raise e, c')
    end.
Proof.
  cbn [burst]. unfold bind, ret.
  destruct (allow_request (Some r) (Some k) timer c) as [[d|e] c']; [|reflexivity].
  destruct (burst (Some r) (Some k) timer n c') as [[ds|e] c'']; reflexivity.
Qed.

(** With [j] entries at [timer] already stored, the next [n] calls at
    that same instant fill the remaining slots and are then refused. *)
Lemma burst_from (n j : nat) (c : Cache) :
  0 < duration r -> 0 <= num_requests r ->
  (j <= Z.to_nat (num_requests r))%nat ->
  stored c k = repeat timer j ->
  fst (burst (Some r) (Some k) timer n c)
  = Ok (repeat true (Nat.min n (Z.to_nat (num_requests r) - j))
        ++ repeat false (n - (Z.to_nat (num_requests r) - j))).
Proof.
  intros Hd Hc. revert j c.
  induction n as [|n IH]; intros j c Hj Hs; [reflexivity|].
  rewrite burst_step.
  assert (Hp : prune timer (duration r) (stored c k) = repeat timer j)
    by (rewrite Hs; now apply prune_repeat).
  destruct (Z_lt_le_dec (Z.of_nat j) (num_requests r)) as [Hlt|Hge].
  - rewrite allow_request_admit
      by (rewrite Hp, repeat_length; exact Hlt).
    rewrite Hp.
    assert (HI : fst (burst (Some r) (Some k) timer n
        {| store := <[k := (timer :: repeat timer j, duration r)]> (store c);
           ops := ops c ++ [CacheGet k;
                            CacheSet k (timer :: repeat timer j) (duration r)] |})
      = Ok (repeat true (Nat.min n (Z.to_nat (num_requests r) - S j))
            ++ repeat false (n - (Z.to_nat (num_requests r) - S j)))).
    { apply IH; [lia|].
      unfold stored. cbn [store]. rewrite lookup_insert_eq. reflexivity. }
    destruct (burst _ _ _ n _) as [[ds|e] c'']; cbn [fst] in *; [|discriminate].
    injection HI as ->.
    assert (Hm : Nat.min (S n) (Z.to_nat (num_requests r) - j)
                 = S (Nat.min n (Z.to_nat (num_requests r) - S j))) by lia.
    rewrite Hm.
    replace (S n - (Z.to_nat (num_requests r) - j))%nat
      with (n - (Z.to_nat (num_requests r) - S j))%nat by lia.
    reflexivity.
  - rewrite allow_request_deny
      by (rewrite Hp, repeat_length; exact Hge).
    specialize (IH j {| store := store c; ops := ops c ++ [CacheGet k] |} Hj Hs).
    destruct (burst _ _ _ n _) as [[ds|e] c'']; cbn [fst] in *; [|discriminate].
    injection IH as ->.
    assert (Hz : (Z.to_nat (num_requests r) - j = 0)%nat) by lia.
    rewrite Hz, Nat.min_0_r, !Nat.sub_0_r. reflexivity.
Qed.

End SingleTier.

(** C2. Single-tier sliding-window admission.  For every stored history
    (sorted or not), every rate and every instant: the evaluator drops a
    tail of entries [<= now - duration] and stops at the first entry from
    the end that is still inside the window; it refuses exactly when the
    pruned length has reached [num_requests], and then the store is left
    as it was; otherwise it admits, puts [now] in front of the pruned
    history and stores it with the rate's duration as timeout.  Hence
    [num_requests + 1] calls at one instant on a fresh key, under a rate
    with a positive window, are answered [True] [num_requests] times and
    then [False]. *)
Theorem sliding_window_admission
    (r : SimpleRateThrottle.Rate) (k : string) (timer : Q) (c : Cache) :
  let w := SimpleRateThrottle.duration r in
  let n := SimpleRateThrottle.num_requests r in
  let p := prune timer w (stored c k) in
  let run := SimpleRateThrottle.allow_request (Some r) (Some k) timer c in
  (exists dropped,
      stored c k = p ++ dropped
      /\ Forall (fun e => (e <= timer - inject_Z w)%Q) dropped
      /\ forall e, oldest p = Some e -> ~ (e <= timer - inject_Z w)%Q)
  /\ (n <= Z.of_nat (length p) <-> exists a c', run = (Ok (false, a), c'))
  /\ (n <= Z.of_nat (length p) ->
      run = (Ok (false, Some {| SimpleRateThrottle.key := k;
                                SimpleRateThrottle.history := p;
                                SimpleRateThrottle.now := timer |}),
             {| store := store c; ops := ops c ++ [CacheGet k] |}))
  /\ (Z.of_nat (length p) < n ->
      run = (Ok (true, Some {| SimpleRateThrottle.key := k;
                               SimpleRateThrottle.history := timer :: p;
                               SimpleRateThrottle.now := timer |}),
             {| store := <[k := (timer :: p, w)]> (store c);
                ops := ops c ++ [CacheGet k; CacheSet k (timer :: p) w] |}))
  /\ (0 < w -> 0 <= n -> stored c k = [] ->
      fst (SimpleRateThrottle.burst (Some r) (Some k) timer (S (Z.to_nat n)) c)
      = Ok (repeat true (Z.to_nat n) ++ [false])).
Proof.
  intros w n p run.
  split; [apply prune_spec|].
  split.
  { split.
    - intros Hn. eexists _, _. apply allow_request_deny. exact Hn.
    - intros (a & c' & Hrun).
      destruct (Z_lt_le_dec (Z.of_nat (length p)) n) as [Hlt|Hge]; [|exact Hge].
      unfold run in Hrun. rewrite allow_request_admit in Hrun by exact Hlt.
      discriminate. }
  split; [apply allow_request_deny|].
  split; [apply allow_request_admit|].
  intros Hw Hn Hs.
  rewrite (burst_from r k timer (S (Z.to_nat n)) 0 c Hw Hn) by (lia || exact Hs).
  replace (Z.to_nat (SimpleRateThrottle.num_requests r) - 0)%nat
    with (Z.to_nat n) by (unfold n; lia).
  replace (Nat.min (S (Z.to_nat n)) (Z.to_nat n)) with (Z.to_nat n) by lia.
  replace (S (Z.to_nat n) - Z.to_nat n)%nat with 1%nat by lia.
  reflexivity.
Qed.

Lemma sliding_window_admission_witness :
  fst (SimpleRateThrottle.burst
         (Some {| SimpleRateThrottle.num_requests := 2;
                  SimpleRateThrottle.duration := 60 |})
         (Some "throttle_anon_1.2.3.4") 5%Q 3 empty_cache)
  = Ok [true; true; false].
Proof.
  apply (sliding_window_admission
           {| SimpleRateThrottle.num_requests := 2;
              SimpleRateThrottle.duration := 60 |}
           "throttle_anon_1.2.3.4" 5%Q empty_cache);
    [reflexivity | discriminate | reflexivity].
Defined.

(** C3. The two wait formulas.  With [remaining = duration - (now -
    history[-1])] for a non-empty history, [duration] otherwise, and
    [available = num_requests - len(history) + 1]:
    [SimpleRateThrottle.wait] gives [None] when [available <= 0] and
    [remaining / available] otherwise, whereas [CommonThrottle.wait_time]
    gives [remaining] itself when [available <= 0] and [remaining /
    available] otherwise. *)
Theorem wait_formulas
    (name k : string) (count w : Z) (hist : list Q) (now : Q) :
  let remaining :=
    match hist with
    | [] => inject_Z w
    | _ :: _ => (inject_Z w - (now - List.last hist 0))%Q
    end in
  let available := count - Z.of_nat (length hist) + 1 in
  SimpleRateThrottle.wait
    {| SimpleRateThrottle.num_requests := count; SimpleRateThrottle.duration := w |}
    {| SimpleRateThrottle.key := k; SimpleRateThrottle.history := hist;
       SimpleRateThrottle.now := now |}
  = (if available <=? 0 then None
     else Some (remaining / inject_Z available)%Q)
  /\ CommonThrottle.wait_time hist
       {| CommonThrottle.rate_name := name;
          CommonThrottle.rate_num_requests := count;
          CommonThrottle.rate_duration := w |} now
     = (if available <=? 0 then remaining
        else (remaining / inject_Z available)%Q).
Proof.
  intros remaining available.
  assert (Hrem : match oldest hist with
                 | Some last => (inject_Z w - (now - last))%Q
                 | None => inject_Z w
                 end = remaining).
  { unfold remaining. destruct hist as [|x hist]; [reflexivity|].
    rewrite (oldest_last (x :: hist) 0%Q) by discriminate. reflexivity. }
  unfold SimpleRateThrottle.wait, CommonThrottle.wait_time.
  cbn [SimpleRateThrottle.history SimpleRateThrottle.now
       SimpleRateThrottle.duration SimpleRateThrottle.num_requests
       CommonThrottle.rate_duration CommonThrottle.rate_num_requests].
  rewrite Hrem. fold available. split; reflexivity.
Qed.

(** C7, as the spec words it, fails twice: at [t = 61] the pruned
    history still holds the entry of [t = 10], and at [t = 15] the wait is
    not 50. *)
Lemma two_per_min_not_emptied :
  prune 61 60 (stored cache_0_10 key_K) <> []
  /\ forall w, SimpleRateThrottle.wait two_per_min (attrs_at [10; 0]%Q 15) = Some w ->
               ~ (w == 50)%Q.
Proof.
  split; [discriminate|].
  intros w [= <-]. discriminate.
Qed.

(** C7 (amended).  Under "2/min" with timestamps 0 and 10 stored: a
    request at [t = 15] is refused, the store is untouched and the wait
    is [(60 - (15 - 0)) / 1 = 45]; a request at [t = 61] is admitted, only
    the entry of [t = 0] being dropped, and [[61; 10]] is stored with a
    timeout of 60. *)
Theorem two_per_min_scenario :
  SimpleRateThrottle.parse_rate (Some "2/min") = Ok (Some two_per_min)
  /\ SimpleRateThrottle.allow_request (Some two_per_min) (Some key_K) 15 cache_0_10
     = (Ok (false, Some (attrs_at [10; 0]%Q 15)),
        {| store := store cache_0_10; ops := [CacheGet key_K] |})
  /\ SimpleRateThrottle.wait two_per_min (attrs_at [10; 0]%Q 15) = Some 45%Q
  /\ prune 61 60 (stored cache_0_10 key_K) = [10%Q]
  /\ SimpleRateThrottle.allow_request (Some two_per_min) (Some key_K) 61 cache_0_10
     = (Ok (true, Some (attrs_at [61; 10]%Q 61)),
        {| store := <[key_K := ([61; 10]%Q, 60)]> (store cache_0_10);
           ops := [CacheGet key_K; CacheSet key_K [61; 10]%Q 60] |}).
Proof.
  split; [reflexivity|].
  split; [apply (allow_request_deny two_per_min key_K 15 cache_0_10); discriminate|].
  split; [reflexivity|].
  split; [reflexivity|].
  apply (allow_request_admit two_per_min key_K 61 cache_0_10). reflexivity.
Qed.

(** ** Wait times as the clock advances *)

Lemma inject_Z_1 (q : Q) : (q / inject_Z 1 == q)%Q.
Proof. change (inject_Z 1) with 1%Q. field. Qed.

(** On a saturated tier the multi-tier wait is the remaining window,
    whether one slot or none is about to free up. *)
Lemma wait_time_saturated (hist : list Q) (t : CommonThrottle.Rate) (now e : Q) :
  CommonThrottle.rate_num_requests t <= Z.of_nat (length hist) ->
  oldest hist = Some e ->
  (CommonThrottle.wait_time hist t now
   == inject_Z (CommonThrottle.rate_duration t) - (now - e))%Q.
Proof.
  intros Hsat He. unfold CommonThrottle.wait_time. rewrite He.
  destruct (Z.leb_spec
              (CommonThrottle.rate_num_requests t - Z.of_nat (length hist) + 1) 0)
    as [Hle|Hgt]; [reflexivity|].
  replace (CommonThrottle.rate_num_requests t - Z.of_nat (length hist) + 1)
    with 1 by lia.
  apply inject_Z_1.
Qed.

Lemma oldest_nonempty (hist : list Q) :
  (0 < length hist)%nat -> exists e, oldest hist = Some e.
Proof.
  destruct hist as [|x hist _] using rev_ind; [simpl; lia|].
  intros _. exists x. apply oldest_snoc.
Qed.

(** C8, as the spec words it, fails on a history longer than the rate
    allows: under "1 per 10 s" with entries 5 and 0 stored, the history is
    saturated and pruning at [t = 6] keeps it whole, yet the single-tier
    wait is [None] at [t = 6] and at [t = 7] alike, and at [t = 21/2],
    when [now - oldest > 10], the request is still refused. *)
Lemma oversaturated_history_stays_refused :
  prune 6 10 (stored cache_0_5 key_K) = [5; 0]%Q
  /\ SimpleRateThrottle.wait one_per_ten (attrs_at [5; 0]%Q 6) = None
  /\ SimpleRateThrottle.wait one_per_ten (attrs_at [5; 0]%Q 7) = None
  /\ (10 < (21 # 2) - 0)%Q
  /\ fst (SimpleRateThrottle.allow_request
            (Some one_per_ten) (Some key_K) (21 # 2) cache_0_5)
     = Ok (false, Some (attrs_at [5%Q] (21 # 2))).
Proof. repeat split. Qed.

(** C8 (amended).  For a rate allowing at least one request and two
    instants [now1 < now2]: on any history that has reached the rate the
    multi-tier wait at [now2] is strictly below the one at [now1]; on a
    history of exactly [num_requests] entries so is the single-tier wait,
    while on a longer one the single-tier wait is [None]; and a request
    arriving when [now - oldest >= duration], against a stored history of
    exactly [num_requests] entries, is admitted. *)
Theorem wait_decreases_until_admitted
    (name k : string) (count w : Z) (hist : list Q) (now1 now2 : Q) :
  1 <= count ->
  (now1 < now2)%Q ->
  let r := {| SimpleRateThrottle.num_requests := count;
              SimpleRateThrottle.duration := w |} in
  let t := {| CommonThrottle.rate_name := name;
              CommonThrottle.rate_num_requests := count;
              CommonThrottle.rate_duration := w |} in
  let at_ now := {| SimpleRateThrottle.key := k;
                    SimpleRateThrottle.history := hist;
                    SimpleRateThrottle.now := now |} in
  (count <= Z.of_nat (length hist) ->
     (CommonThrottle.wait_time hist t now2 < CommonThrottle.wait_time hist t now1)%Q)
  /\ (Z.of_nat (length hist) = count ->
      exists w1 w2,
        SimpleRateThrottle.wait r (at_ now1) = Some w1
        /\ SimpleRateThrottle.wait r (at_ now2) = Some w2
        /\ (w2 < w1)%Q)
  /\ (count < Z.of_nat (length hist) ->
      SimpleRateThrottle.wait r (at_ now1) = None)
  /\ (forall c e,
        stored c k = hist -> Z.of_nat (length hist) = count ->
        oldest hist = Some e -> (inject_Z w <= now1 - e)%Q ->
        exists a c', SimpleRateThrottle.allow_request (Some r) (Some k) now1 c
                     = (Ok (true, a), c')).
Proof.
  intros Hcount Hnow r t at_.
  split; [|split; [|split]].
  - intros Hsat.
    destruct (oldest_nonempty hist) as [e He]; [lia|].
    rewrite (wait_time_saturated hist t now1 e), (wait_time_saturated hist t now2 e)
      by assumption.
    cbn [CommonThrottle.rate_duration t]. lra.
  - intros Hlen.
    destruct (oldest_nonempty hist) as [e He]; [lia|].
    unfold SimpleRateThrottle.wait.
    cbn [SimpleRateThrottle.history SimpleRateThrottle.now at_
         SimpleRateThrottle.duration SimpleRateThrottle.num_requests r].
    rewrite He.
    replace (count - Z.of_nat (length hist) + 1) with 1 by lia.
    cbn [Z.leb Z.compare].
    eexists _, _. split; [reflexivity|]. split; [reflexivity|].
    rewrite !inject_Z_1. lra.
  - intros Hover. unfold SimpleRateThrottle.wait.
    cbn [SimpleRateThrottle.history SimpleRateThrottle.now at_
         SimpleRateThrottle.duration SimpleRateThrottle.num_requests r].
    destruct (Z.leb_spec (count - Z.of_nat (length hist) + 1) 0); [reflexivity|lia].
  - intros c e Hs Hlen He Hout.
    eexists _, _. apply allow_request_admit.
    cbn [SimpleRateThrottle.duration SimpleRateThrottle.num_requests r].
    rewrite Hs.
    assert (Hexp : expired now1 w e = true) by (apply expired_iff; lra).
    pose proof (prune_expired now1 w hist e He Hexp). lia.
Qed.

Lemma wait_decreases_until_admitted_witness :
  (CommonThrottle.wait_time [10; 0]%Q
     {| CommonThrottle.rate_name := "2/min"; CommonThrottle.rate_num_requests := 2;
        CommonThrottle.rate_duration := 60 |} 20
   < CommonThrottle.wait_time [10; 0]%Q
       {| CommonThrottle.rate_name := "2/min"; CommonThrottle.rate_num_requests := 2;
          CommonThrottle.rate_duration := 60 |} 15)%Q.
Proof.
  apply (wait_decreases_until_admitted "2/min" key_K 2 60 [10; 0]%Q 15 20);
    [discriminate | reflexivity | discriminate].
Defined.

(** ** Cache keys *)

Lemma append_inj_l (p a b : string) : (p ++ a = p ++ b)%string -> a = b.
Proof.
  induction p as [|c p IH]; [trivial|].
  rewrite !append_cons. intros [= H]. auto.
Qed.

Lemma append_length (a b : string) :
  String.length (a ++ b) = (String.length a + String.length b)%nat.
Proof.
  induction a as [|c a IH]; [reflexivity|].
  rewrite append_cons. simpl. now rewrite IH.
Qed.

Lemma append_inj_r (a b x : string) : (a ++ x = b ++ x)%string -> a = b.
Proof.
  revert b. induction a as [|c a IH]; intros [|d b] H.
  - reflexivity.
  - apply (f_equal String.length) in H.
    rewrite append_empty_l, append_cons in H. simpl in H.
    rewrite append_length in H. lia.
  - apply (f_equal String.length) in H.
    rewrite append_empty_l, append_cons in H. simpl in H.
    rewrite append_length in H. lia.
  - rewrite !append_cons in H. injection H as -> H. f_equal. now apply IH.
Qed.

(** A field free of underscores ends exactly at the first underscore. *)
Lemma field_inj (a b x y : string) :
  no_underscore a = true -> no_underscore b = true ->
  (a ++ "_" ++ x = b ++ "_" ++ y)%string -> a = b /\ x = y.
Proof.
  revert b. induction a as [|c a IH]; intros [|d b] Ha Hb H.
  - rewrite !append_empty_l in H. apply (append_inj_l "_") in H. auto.
  - rewrite append_empty_l, !append_cons, append_empty_l in H.
    injection H as <- _. discriminate.
  - rewrite append_empty_l, !append_cons, append_empty_l in H.
    injection H as -> _. discriminate.
  - rewrite !append_cons in H. injection H as -> H.
    simpl in Ha, Hb. apply andb_prop in Ha as [_ Ha]. apply andb_prop in Hb as [_ Hb].
    destruct (IH b Ha Hb H) as [-> ->]. auto.
Qed.

Lemma str_of_int_inj (n m : Z) : Py.str_of_int n = Py.str_of_int m -> n = m.
Proof.
  unfold Py.str_of_int. intros H.
  apply DecimalZ.to_int_inj.
  assert (Hparse : forall z, NilZero.int_of_string (NilZero.string_of_int (Z.to_int z))
                             = Some (Z.to_int z)).
  { intros z. apply NilZero.isi; destruct z; simpl; intros [= E];
      try discriminate; now apply DecimalPos.Unsigned.to_uint_nonnil in E. }
  pose proof (Hparse n) as Hn. rewrite H, Hparse in Hn. now injection Hn.
Qed.

Lemma str_of_ident_inj (i i' : Ident) :
  same_kind i i' = true -> str_of_ident i = str_of_ident i' -> i = i'.
Proof.
  destruct i, i'; simpl; try discriminate; intros _ H.
  - f_equal. now apply str_of_int_inj.
  - now f_equal.
  - reflexivity.
Qed.

(** Within one call scope and identity are fixed: tiers with different
    names get different keys. *)
Lemma get_cache_key_rate_inj (ident : Ident) (scope rate rate' : string) :
  CommonThrottle.get_cache_key ident scope rate
  = CommonThrottle.get_cache_key ident scope rate' -> rate = rate'.
Proof.
  unfold CommonThrottle.get_cache_key. intros H.
  apply append_inj_l, append_inj_l, append_inj_l in H.
  now apply append_inj_r in H.
Qed.

Lemma get_scope_no_underscore (request : Request) :
  no_underscore (CommonThrottle.get_scope request) = true.
Proof.
  unfold CommonThrottle.get_scope.
  destruct (is_authenticated (user request)), (existsb _ _); reflexivity.
Qed.

(** C9, as the spec words it, fails: a scope with an underscore can run
    into the identity, and a user id renders like the string of its
    digits. *)
Lemma cache_keys_collide :
  ("a_b", IdStr "c") <> ("a", IdStr "b_c")
  /\ SimpleRateThrottle.cache_format "a_b" (IdStr "c")
     = SimpleRateThrottle.cache_format "a" (IdStr "b_c")
  /\ ("user", IdInt 1) <> ("user", IdStr "1")
  /\ SimpleRateThrottle.cache_format "user" (IdInt 1)
     = SimpleRateThrottle.cache_format "user" (IdStr "1")
  /\ ("anon-read", IdStr "y", "5/s_x") <> ("anon-read", IdStr "x_y", "5/s")
  /\ CommonThrottle.get_cache_key (IdStr "y") "anon-read" "5/s_x"
     = CommonThrottle.get_cache_key (IdStr "x_y") "anon-read" "5/s".
Proof. repeat split; discriminate. Qed.

(** C9 (amended).  The key builders are functions of their arguments, so
    equal arguments give the equal key.  Keys of different (scope,
    identity) pairs differ provided neither scope contains an underscore
    and the two identities are of one kind (two user ids, two strings);
    keys of different (scope, identity, tier name) triples differ provided
    moreover neither tier name contains an underscore. *)
Theorem cache_keys_distinct
    (scope scope' rate rate' : string) (ident ident' : Ident) :
  no_underscore scope = true -> no_underscore scope' = true ->
  same_kind ident ident' = true ->
  ((scope, ident) = (scope', ident') ->
   SimpleRateThrottle.cache_format scope ident
   = SimpleRateThrottle.cache_format scope' ident')
  /\ ((scope, ident, rate) = (scope', ident', rate') ->
      CommonThrottle.get_cache_key ident scope rate
      = CommonThrottle.get_cache_key ident' scope' rate')
  /\ ((scope, ident) <> (scope', ident') ->
      SimpleRateThrottle.cache_format scope ident
      <> SimpleRateThrottle.cache_format scope' ident')
  /\ (no_underscore rate = true -> no_underscore rate' = true ->
      (scope, ident, rate) <> (scope', ident', rate') ->
      CommonThrottle.get_cache_key ident scope rate
      <> CommonThrottle.get_cache_key ident' scope' rate').
Proof.
  intros Hs Hs' Hk.
  split; [intros [= -> ->]; reflexivity|].
  split; [intros [= -> -> ->]; reflexivity|].
  split.
  - intros Hne Heq. apply Hne.
    unfold SimpleRateThrottle.cache_format in Heq.
    apply append_inj_l in Heq.
    destruct (field_inj _ _ _ _ Hs Hs' Heq) as [-> Hi].
    now rewrite (str_of_ident_inj _ _ Hk Hi).
  - intros Hr Hr' Hne Heq. apply Hne.
    unfold CommonThrottle.get_cache_key in Heq.
    apply append_inj_l in Heq.
    destruct (field_inj _ _ _ _ Hs Hs' Heq) as [-> Heq'].
    destruct (field_inj _ _ _ _ Hr Hr' Heq') as [-> Hi].
    now rewrite (str_of_ident_inj _ _ Hk Hi).
Qed.

Lemma cache_keys_distinct_witness :
  SimpleRateThrottle.cache_format "anon" (IdStr "1.2.3.4")
  <> SimpleRateThrottle.cache_format "user" (IdStr "1.2.3.4").
Proof.
  apply (cache_keys_distinct "anon" "user" "2/s" "3/min"
           (IdStr "1.2.3.4") (IdStr "1.2.3.4"));
    [reflexivity | reflexivity | reflexivity | discriminate].
Defined.

(** ** CommonThrottle: the two loops *)

Lemma max_fold_spec (t : list Q) (x : Q) :
  let m := fold_left (fun m y => if Qle_bool y m then m else y) t x in
  (m = x \/ In m t) /\ (x <= m)%Q /\ Forall (fun y => (y <= m)%Q) t.
Proof.
  revert x. induction t as [|y t IH]; intros x; cbn [fold_left].
  - split; [now left|]. split; [apply Qle_refl | constructor].
  - destruct (Qle_bool y x) eqn:Hyx.
    + destruct (IH x) as (Hin & Hle & Hall).
      split; [destruct Hin; [now left | right; now right]|].
      split; [exact Hle|].
      constructor; [|exact Hall].
      apply Qle_bool_iff in Hyx. eapply Qle_trans; eassumption.
    + destruct (IH y) as (Hin & Hle & Hall).
      split; [right; destruct Hin as [->|Hin]; [now left | now right]|].
      assert (Hxy : (x <= y)%Q).
      { apply Qlt_le_weak, Qnot_le_lt. rewrite <- Qle_bool_iff, Hyx. discriminate. }
      split; [eapply Qle_trans; eassumption|].
      constructor; assumption.
Qed.

(** [max] returns an element of the list that no element exceeds. *)
Lemma max_spec (l : list Q) (m : Q) :
  Py.max l = Some m -> In m l /\ Forall (fun y => (y <= m)%Q) l.
Proof.
  destruct l as [|x t]; [discriminate|]. intros [= <-].
  destruct (max_fold_spec t x) as (Hin & Hle & Hall).
  split; [destruct Hin as [->|Hin]; [now left | now right]|].
  constructor; assumption.
Qed.

Lemma max_none (l : list Q) : Py.max l = None <-> l = [].
Proof. destruct l; split; intros H; try discriminate; reflexivity. Qed.

Lemma stored_same_store (c : Cache) (o : list CacheOp) (k : string) :
  stored {| store := store c; ops := o |} k = stored c k.
Proof. reflexivity. Qed.

Section Loops.

Import CommonThrottle.

Variables (ident : Ident) (scope : string) (now : Q).

Lemma tier_history_same_store (c : Cache) (o : list CacheOp) (t : Rate) :
  tier_history ident scope now {| store := store c; ops := o |} t
  = tier_history ident scope now c t.
Proof. reflexivity. Qed.

Lemma tier_denies_same_store (c : Cache) (o : list CacheOp) (t : Rate) :
  tier_denies ident scope now {| store := store c; ops := o |} t
  = tier_denies ident scope now c t.
Proof. reflexivity. Qed.

(** The first loop only reads: it collects the wait of every refusing
    tier and the pruned history of every tier. *)
Lemma check_tiers_run (tiers : list Rate) :
  forall (waits : list Q) (hws : list HistoryWrite) (c : Cache),
    check_tiers ident scope now (map Some tiers) waits hws c
    = (Ok (waits ++ map (fun t => wait_time (tier_history ident scope now c t) t now)
                      (List.filter (tier_denies ident scope now c) tiers),
           hws ++ map (tier_write ident scope now c) tiers),
       {| store := store c;
          ops := ops c ++ map (fun t => CacheGet (tier_key ident scope t)) tiers |}).
Proof.
  induction tiers as [|t tiers IH]; intros waits hws c.
  - cbn. rewrite !app_nil_r. destruct c; reflexivity.
  - cbn [map check_tiers]. unfold bind at 1. unfold cache_get at 1.
    rewrite IH. cbn [store ops].
    fold (tier_key ident scope t). fold (tier_history ident scope now c t).
    fold (tier_denies ident scope now c t).
    cbn [List.filter].
    rewrite <- !app_assoc. cbn [app].
    destruct (tier_denies ident scope now c t); cbn [map];
      rewrite <- ?app_assoc; reflexivity.
Qed.

(** The second loop writes every collected history, [now] in front. *)
Lemma write_histories_run (hws : list HistoryWrite) :
  forall c : Cache,
    write_histories now hws c
    = (Ok tt,
       {| store := write_all now hws (store c);
          ops := ops c ++ map (fun hw => CacheSet (hw_key hw) (now :: hw_history hw)
                                                  (hw_rate_duration hw)) hws |}).
Proof.
  induction hws as [|hw hws IH]; intros c.
  - cbn. rewrite app_nil_r. destruct c; reflexivity.
  - cbn [write_histories]. unfold bind at 1. unfold cache_set at 1.
    rewrite IH. unfold write_all. cbn [store ops map fold_left].
    rewrite <- app_assoc. reflexivity.
Qed.

Lemma write_all_other (hws : list HistoryWrite) (k : string) :
  forall m, ~ In k (map hw_key hws) -> write_all now hws m !! k = m !! k.
Proof.
  induction hws as [|hw hws IH]; intros m Hk; [reflexivity|].
  change (write_all now (hw :: hws) m)
    with (write_all now hws
            (<[hw_key hw := (now :: hw_history hw, hw_rate_duration hw)]> m)).
  rewrite IH by (intros Hin; apply Hk; now right).
  apply lookup_insert_ne. intros Heq. apply Hk. now left.
Qed.

(** When entries with one key are one and the same, every entry is found
    as written, whatever the order. *)
Lemma write_all_lookup (hws : list HistoryWrite) (hw : HistoryWrite) :
  (forall a b, In a hws -> In b hws -> hw_key a = hw_key b -> a = b) ->
  In hw hws ->
  forall m, write_all now hws m !! hw_key hw
            = Some (now :: hw_history hw, hw_rate_duration hw).
Proof.
  induction hws as [|h0 hws IH]; intros Hcons Hin m; [destruct Hin|].
  change (write_all now (h0 :: hws) m)
    with (write_all now hws
            (<[hw_key h0 := (now :: hw_history h0, hw_rate_duration h0)]> m)).
  destruct (in_dec string_dec (hw_key hw) (map hw_key hws)) as [Hk|Hk].
  - apply in_map_iff in Hk as (hw' & Hkey & Hin').
    assert (hw' = hw) as ->.
    { apply Hcons; [now right | exact Hin | exact Hkey]. }
    apply IH; [|exact Hin'].
    intros a b Ha Hb. apply Hcons; now right.
  - rewrite write_all_other by exact Hk.
    destruct Hin as [->|Hin].
    + apply lookup_insert_eq.
    + exfalso. apply Hk. now apply in_map.
Qed.

End Loops.

(** ** CommonThrottle: rate lookup *)

Lemma parse_rate_name (r : string) (t : CommonThrottle.Rate) :
  CommonThrottle.parse_rate (Some r) = Ok (Some t) -> CommonThrottle.rate_name t = r.
Proof.
  unfold CommonThrottle.parse_rate.
  destruct (Py.split_on "/" r) as [|num [|period [|? ?]]]; try discriminate.
  destruct (Py.int num) as [n|e]; [|discriminate]. cbn [rbind].
  destruct period as [|ch period]; [discriminate|].
  destruct (SimpleRateThrottle.period_seconds ch) as [d|e]; [|discriminate].
  cbn [rbind]. intros [= <-]. reflexivity.
Qed.

Lemma parse_rate_window (r : option string) (t : CommonThrottle.Rate) :
  CommonThrottle.parse_rate r = Ok (Some t) ->
  In (CommonThrottle.rate_duration t) [1; 60; 3600; 86400].
Proof.
  unfold CommonThrottle.parse_rate. destruct r as [r|]; [|discriminate].
  destruct (Py.split_on "/" r) as [|num [|period [|? ?]]]; try discriminate.
  destruct (Py.int num) as [n|e]; [|discriminate]. cbn [rbind].
  destruct period as [|ch period]; [discriminate|].
  unfold SimpleRateThrottle.period_seconds.
  destruct (Ascii.eqb ch "s"); [intros [= <-]; simpl; tauto|].
  destruct (Ascii.eqb ch "m"); [intros [= <-]; simpl; tauto|].
  destruct (Ascii.eqb ch "h"); [intros [= <-]; simpl; tauto|].
  destruct (Ascii.eqb ch "d"); [intros [= <-]; simpl; tauto|].
  discriminate.
Qed.

Lemma parse_rates_names (l : list (option string)) :
  forall rs, CommonThrottle.parse_rates l = Ok rs ->
  forall t, In (Some t) rs ->
            CommonThrottle.parse_rate (Some (CommonThrottle.rate_name t)) = Ok (Some t).
Proof.
  induction l as [|r l IH]; intros rs Hrs t Hin.
  - injection Hrs as <-. destruct Hin.
  - cbn [CommonThrottle.parse_rates] in Hrs.
    destruct (CommonThrottle.parse_rate r) as [x|e] eqn:Hr; [|discriminate].
    cbn [rbind] in Hrs.
    destruct (CommonThrottle.parse_rates l) as [xs|e]; [|discriminate].
    injection Hrs as <-. destruct Hin as [->|Hin].
    + destruct r as [r|]; [|discriminate].
      now rewrite (parse_rate_name r t Hr).
    + now apply (IH xs).
Qed.

(** Every tier [get_rates] returns is the parse of its own name: tiers of
    one name are one tier. *)
Lemma get_rates_names (cfg : Settings) (scope : string)
    (rs : list (option CommonThrottle.Rate)) :
  CommonThrottle.get_rates cfg scope = Ok rs ->
  forall t, In (Some t) rs ->
            CommonThrottle.parse_rate (Some (CommonThrottle.rate_name t)) = Ok (Some t).
Proof.
  unfold CommonThrottle.get_rates.
  destruct (THROTTLE_RATES cfg !! scope) as [[| r | l |]|]; try discriminate.
  - intros [= <-] t [].
  - destruct (CommonThrottle.parse_rate (Some r)) as [x|e] eqn:Hr; [|discriminate].
    intros [= <-] t [->|[]]. now rewrite (parse_rate_name r t Hr).
  - apply parse_rates_names.
Qed.

Lemma get_rates_absent (cfg : Settings) (scope : string) :
  THROTTLE_RATES cfg !! scope = None ->
  exists msg, CommonThrottle.get_rates cfg scope = Raise (ImproperlyConfigured msg).
Proof.
  intros H. unfold CommonThrottle.get_rates. rewrite H. eexists. reflexivity.
Qed.

Lemma get_rates_configured (cfg : Settings) (scope : string)
    (rs : list (option CommonThrottle.Rate)) :
  CommonThrottle.get_rates cfg scope = Ok rs ->
  exists conf, THROTTLE_RATES cfg !! scope = Some conf.
Proof.
  unfold CommonThrottle.get_rates.
  destruct (THROTTLE_RATES cfg !! scope) as [conf|]; [eauto | discriminate].
Qed.

(** ** CommonThrottle.allow_request *)

Section Evaluator.

Import CommonThrottle.

Variable get_ip : Request -> option string.
Variable all_matching_cidrs : Ident -> list string -> option (list string).

Local Abbreviation get_ident := (CommonThrottle.get_ident get_ip).
Local Abbreviation is_whitelisted := (CommonThrottle.is_whitelisted all_matching_cidrs).
Local Abbreviation entry_matches := (CommonThrottle.entry_matches all_matching_cidrs).
Local Abbreviation allow_request := (CommonThrottle.allow_request get_ip all_matching_cidrs).

Variables (cfg : Settings) (timer : Q) (request : Request).

Lemma allow_request_raises (e : exn) (c : Cache) :
  get_rates cfg (get_scope request) = Raise e ->
  allow_request cfg timer request c = (Raise e, c).
Proof.
  intros H. unfold CommonThrottle.allow_request, bind, lift. rewrite H. reflexivity.
Qed.

Lemma allow_request_whitelisted (rs : list (option Rate)) (c : Cache) :
  get_rates cfg (get_scope request) = Ok rs ->
  is_whitelisted cfg (get_ident request) = true ->
  allow_request cfg timer request c = (Ok (true, None), c).
Proof.
  intros H Hw. unfold CommonThrottle.allow_request, bind, lift.
  rewrite H, Hw. reflexivity.
Qed.

Lemma allow_request_unthrottled (c : Cache) :
  get_rates cfg (get_scope request) = Ok [] ->
  allow_request cfg timer request c = (Ok (true, None), c).
Proof.
  intros H. unfold CommonThrottle.allow_request, bind, lift. rewrite H.
  destruct (is_whitelisted cfg (get_ident request)); reflexivity.
Qed.

Lemma is_whitelisted_in_iff (ident : Ident) (l : list WhitelistEntry) :
  is_whitelisted_in all_matching_cidrs ident l = true
  <-> exists e, In e l /\ entry_matches ident e = true.
Proof.
  induction l as [|x l IH]; cbn [is_whitelisted_in].
  - split; [discriminate | intros (e & [] & _)].
  - destruct (entry_matches ident x) eqn:Hx.
    + split; [|reflexivity]. intros _. exists x. split; [now left | exact Hx].
    + rewrite IH. split.
      * intros (e & Hin & He). exists e. split; [now right | exact He].
      * intros (e & [->|Hin] & He); [congruence|]. now exists e.
Qed.

(** The throttled path: the scope has tiers and the identity is not
    whitelisted. *)
Lemma allow_request_tiers (tiers : list Rate) (c : Cache) :
  let scope := get_scope request in
  let ident := get_ident request in
  get_rates cfg scope = Ok (map Some tiers) -> tiers <> [] ->
  is_whitelisted cfg ident = false ->
  allow_request cfg timer request c
  = let c1 := {| store := store c;
                 ops := ops c ++ map (fun t => CacheGet (tier_key ident scope t)) tiers |} in
    match Py.max (map (fun t => wait_time (tier_history ident scope timer c t) t timer)
                      (List.filter (tier_denies ident scope timer c) tiers)) with
    | Some w => (Ok (false, Some w), c1)
    | None =>
        (Ok (true, None),
         {| store := write_all timer (map (tier_write ident scope timer c) tiers) (store c);
            ops := ops c1
                   ++ map (fun t => CacheSet (tier_key ident scope t)
                                      (timer :: tier_history ident scope timer c t)
                                      (rate_duration t)) tiers |})
    end.
Proof.
  intros scope ident Hr Hne Hw.
  unfold CommonThrottle.allow_request, bind at 1, lift.
  fold scope ident. rewrite Hr, Hw.
  destruct tiers as [|t0 tiers0] eqn:Ht; [congruence|].
  change (map Some (t0 :: tiers0)) with (Some t0 :: map Some tiers0) at 1.
  cbv iota. rewrite <- Ht in *. clear Ht Hne.
  unfold bind at 1. rewrite check_tiers_run. cbn [fst snd app].
  destruct (Py.max _) as [w|]; [reflexivity|].
  unfold bind, ret. rewrite write_histories_run. cbn [store ops].
  rewrite map_map. reflexivity.
Qed.


(** C6.  Looking up a scope that is absent from the rate table raises
    [ImproperlyConfigured], and so does the evaluation of a request with
    such a scope, before the cache is touched; a scope configured as
    [None] or as the empty list has no tiers, and a request with such a
    scope is admitted with the cache neither read nor written. *)
Theorem unconfigured_scope_is_an_error (c : Cache) :
  (forall scope,
      THROTTLE_RATES cfg !! scope = None ->
      exists msg, get_rates cfg scope = Raise (ImproperlyConfigured msg))
  /\ (THROTTLE_RATES cfg !! get_scope request = None ->
      exists msg,
        allow_request cfg timer request c = (Raise (ImproperlyConfigured msg), c))
  /\ (forall scope,
        THROTTLE_RATES cfg !! scope = Some RNone
        \/ THROTTLE_RATES cfg !! scope = Some (RList []) ->
        get_rates cfg scope = Ok [])
  /\ (THROTTLE_RATES cfg !! get_scope request = Some RNone
      \/ THROTTLE_RATES cfg !! get_scope request = Some (RList []) ->
      allow_request cfg timer request c = (Ok (true, None), c)).
Proof.
  assert (Hempty : forall scope,
             THROTTLE_RATES cfg !! scope = Some RNone
             \/ THROTTLE_RATES cfg !! scope = Some (RList []) ->
             get_rates cfg scope = Ok []).
  { intros scope [H|H]; unfold get_rates; rewrite H; reflexivity. }
  split; [apply get_rates_absent|].
  split.
  - intros H. destruct (get_rates_absent cfg _ H) as [msg Hmsg].
    exists msg. now apply allow_request_raises.
  - split; [exact Hempty|].
    intros H. apply allow_request_unthrottled, Hempty, H.
Qed.

(** C10.  The rate lookup comes before the whitelist check: for a
    whitelisted identity whose scope is absent from the rate table the
    evaluation raises [ImproperlyConfigured] and leaves the cache alone;
    it returns at all only when the scope is configured. *)
Theorem rate_lookup_precedes_whitelist (c : Cache) :
  is_whitelisted cfg (get_ident request) = true ->
  (THROTTLE_RATES cfg !! get_scope request = None ->
   exists msg,
     allow_request cfg timer request c = (Raise (ImproperlyConfigured msg), c))
  /\ (forall d c',
        allow_request cfg timer request c = (Ok d, c') ->
        d = (true, None) /\ c' = c
        /\ exists conf, THROTTLE_RATES cfg !! get_scope request = Some conf).
Proof.
  intros Hw. split.
  - intros H. destruct (get_rates_absent cfg _ H) as [msg Hmsg].
    exists msg. now apply allow_request_raises.
  - intros d c' Hrun.
    destruct (get_rates cfg (get_scope request)) as [rs|e] eqn:Hr.
    + rewrite (allow_request_whitelisted rs c Hr Hw) in Hrun.
      injection Hrun as <- <-.
      split; [reflexivity|]. split; [reflexivity|].
      now apply get_rates_configured with (rs := rs).
    + rewrite (allow_request_raises e c Hr) in Hrun. discriminate.
Qed.

End Evaluator.

(** ** The evaluator on concrete requests *)


(** The refusal above, evaluated: the wait is that of the full tier and
    the history of the tier that would have admitted is as it was. *)
Example refused_by_one_tier :
  let run := demo_allow_request demo_settings 100
               (req_from "11.1.2.3" anonymous "GET") (busy_cache "11.1.2.3") in
  fst run = Ok (false, Some 10%Q)
  /\ store (snd run) !! demo_key "11.1.2.3" "2/s" = Some ([100]%Q, 1).
Proof. split; reflexivity. Qed.

(** With room in both tiers the request is admitted and both histories
    are written, the expired entry of [t = 30] gone. *)
Example admitted_by_every_tier :
  let run := demo_allow_request demo_settings 100
               (req_from "11.1.2.3" anonymous "GET") (quiet_cache "11.1.2.3") in
  fst run = Ok (true, None)
  /\ store (snd run) !! demo_key "11.1.2.3" "2/s" = Some ([100; 100]%Q, 1)
  /\ store (snd run) !! demo_key "11.1.2.3" "3/min" = Some ([100; 99; 50]%Q, 60).
Proof. repeat split; reflexivity. Qed.

(** ** The whitelist *)

Section Whitelist.

Import CommonThrottle.

Variable get_ip : Request -> option string.
Variable all_matching_cidrs : Ident -> list string -> option (list string).

(** What netaddr reads: [IPAddress(ident)] and [IPNetwork(entry)], [None]
    when they raise [AddrFormatError] or [ValueError], and [ip in
    network]. *)
Variables address network : Type.
Variable IPAddress : Ident -> option address.
Variable IPNetwork : string -> option network.
Variable contains : network -> address -> bool.

(** [all_matching_cidrs(ident, [entry])] reads the identity and the
    entry, raises if either cannot be read, and returns the entry's
    network if it contains the address, nothing otherwise. *)
Hypothesis netaddr_contract :
  forall ident s,
    match IPAddress ident, IPNetwork s with
    | Some a, Some n =>
        exists l, all_matching_cidrs ident [s] = Some l
                  /\ (l <> [] <-> contains n a = true)
    | _, _ => all_matching_cidrs ident [s] = None
    end.

Local Abbreviation get_ident := (CommonThrottle.get_ident get_ip).
Local Abbreviation is_whitelisted := (CommonThrottle.is_whitelisted all_matching_cidrs).
Local Abbreviation entry_matches := (CommonThrottle.entry_matches all_matching_cidrs).
Local Abbreviation allow_request := (CommonThrottle.allow_request get_ip all_matching_cidrs).

(** A string entry matches by containment of the identity's address. *)
Lemma entry_matches_contains (ident : Ident) (s : string) :
  entry_matches ident (WStr s) = true
  <-> exists a n, IPAddress ident = Some a /\ IPNetwork s = Some n
                  /\ contains n a = true.
Proof.
  cbn [CommonThrottle.entry_matches]. pose proof (netaddr_contract ident s) as H.
  destruct (IPAddress ident) as [a|]; [destruct (IPNetwork s) as [n|]|].
  - destruct H as (l & -> & Hl). destruct l as [|x l].
    + split; [discriminate|]. intros (a' & n' & [= <-] & [= <-] & Hc).
      apply Hl in Hc. congruence.
    + split; [|reflexivity]. intros _. exists a, n.
      repeat split. apply Hl. discriminate.
  - rewrite H. split; [discriminate | intros (? & ? & _ & [=] & _)].
  - rewrite H. split; [discriminate | intros (? & ? & [=] & _)].
Qed.

(** C4 (amended).  For every identity: an integer entry matches exactly
    the identity equal to it; a string entry matches exactly when netaddr
    reads an address from the identity and a network from the entry and
    the network contains the address, so a range matches by containment
    and an entry whose network holds one address alone, a literal
    address, matches exactly the identities with that address; an
    identity netaddr reads no address from, and an entry it reads no
    network from, never match, the error being swallowed; the identity is
    whitelisted exactly when some entry matches; and a whitelisted
    identity, provided the rate lookup for its scope succeeds, is admitted
    with the cache neither read nor written, whatever the stored
    histories are. *)
Theorem whitelist_bypass
    (cfg : Settings) (timer : Q) (request : Request) (c : Cache) :
  (forall ident n, entry_matches ident (WInt n) = true <-> ident = IdInt n)
  /\ (forall ident s,
        entry_matches ident (WStr s) = true
        <-> exists a n, IPAddress ident = Some a /\ IPNetwork s = Some n
                        /\ contains n a = true)
  /\ (forall ident s n a',
        IPNetwork s = Some n ->
        (forall a, contains n a = true <-> a = a') ->
        (entry_matches ident (WStr s) = true <-> IPAddress ident = Some a'))
  /\ (forall ident s,
        IPAddress ident = None \/ IPNetwork s = None ->
        entry_matches ident (WStr s) = false)
  /\ (forall ident,
        is_whitelisted cfg ident = true
        <-> exists e, In e (DEFAULT_THROTTLE_WHITELIST cfg)
                      /\ entry_matches ident e = true)
  /\ (forall rates,
        get_rates cfg (get_scope request) = Ok rates ->
        is_whitelisted cfg (get_ident request) = true ->
        allow_request cfg timer request c = (Ok (true, None), c)).
Proof.
  split; [|split; [|split; [|split; [|split]]]].
  - intros ident n. cbn [CommonThrottle.entry_matches]. destruct ident as [m|s|].
    + rewrite Z.eqb_eq. split; [intros ->; reflexivity | intros [= ->]; reflexivity].
    + split; discriminate.
    + split; discriminate.
  - apply entry_matches_contains.
  - intros ident s n a' Hn Hone. rewrite entry_matches_contains. split.
    + intros (a & n' & Ha & Hn' & Hc). rewrite Hn in Hn'. injection Hn' as <-.
      apply Hone in Hc. now subst a.
    + intros Ha. exists a', n. repeat split; [exact Ha | exact Hn | now apply Hone].
  - intros ident s Hnone.
    destruct (entry_matches ident (WStr s)) eqn:Hm; [|reflexivity].
    apply entry_matches_contains in Hm as (a & n & Ha & Hn & _).
    destruct Hnone as [H|H]; congruence.
  - intros ident. apply is_whitelisted_in_iff.
  - intros rates. apply allow_request_whitelisted.
Qed.

End Whitelist.

(** The stand-in keeps netaddr's contract. *)
Lemma netaddr4_contract (ident : Ident) (s : string) :
  match Netaddr4.ip_of_ident ident, Netaddr4.network s with
  | Some a, Some n =>
      exists l, Netaddr4.all_matching_cidrs ident [s] = Some l
                /\ (l <> [] <-> Netaddr4.contains n a = true)
  | _, _ => Netaddr4.all_matching_cidrs ident [s] = None
  end.
Proof.
  unfold Netaddr4.all_matching_cidrs, Netaddr4.contains. cbn [fold_right].
  destruct (Netaddr4.ip_of_ident ident) as [ip|]; [|reflexivity].
  destruct (Netaddr4.network s) as [[net k]|]; [|reflexivity].
  cbn [fst snd]. eexists. split; [reflexivity|].
  destruct (Z.shiftr ip (32 - k) =? Z.shiftr net (32 - k));
    split; (congruence || discriminate).
Qed.

(** C4, as the spec words it, fails twice.  User 7 is whitelisted, yet
    with no rates set for the scope the evaluation of the request raises
    instead of admitting it.  And matching a range is not limited to
    address-shaped identities: the id of user 167772161, read as an
    address, is 10.0.0.1, so the entry "10.0.0.0/8" matches that user,
    whose spent write is then admitted, while with nobody whitelisted it
    is refused. *)
Lemma whitelist_claim_fails :
  (CommonThrottle.is_whitelisted Netaddr4.all_matching_cidrs no_rates
     (CommonThrottle.get_ident Netaddr4.get_ip (req_from "1.2.3.4" (member 7) "GET"))
   = true
   /\ exists msg,
        demo_allow_request no_rates 0 (req_from "1.2.3.4" (member 7) "GET") empty_cache
        = (Raise (ImproperlyConfigured msg), empty_cache))
  /\ (CommonThrottle.get_ident Netaddr4.get_ip
        (req_from "1.2.3.4" (member 167772161) "POST") = IdInt 167772161
      /\ CommonThrottle.entry_matches Netaddr4.all_matching_cidrs
           (IdInt 167772161) (WStr "10.0.0.0/8") = true
      /\ demo_allow_request demo_settings 100
           (req_from "1.2.3.4" (member 167772161) "POST") spent_cache
         = (Ok (true, None), spent_cache)
      /\ exists w,
           fst (demo_allow_request unlisted_settings 100
                  (req_from "1.2.3.4" (member 167772161) "POST") spent_cache)
           = Ok (false, Some w)).
Proof.
  split; [split; [reflexivity | eexists; reflexivity]|].
  split; [reflexivity|]. split; [reflexivity|]. split; [reflexivity|].
  eexists. reflexivity.
Qed.

Lemma whitelist_bypass_witness :
  demo_allow_request demo_settings 100 (req_from "10.1.2.3" anonymous "GET")
                     (busy_cache "10.1.2.3")
  = (Ok (true, None), busy_cache "10.1.2.3")
  /\ (CommonThrottle.entry_matches Netaddr4.all_matching_cidrs
        (IdStr "192.168.1.5") (WStr "192.168.1.5") = true
      <-> Netaddr4.ip_of_ident (IdStr "192.168.1.5") = Some 3232235781).
Proof.
  destruct (whitelist_bypass Netaddr4.get_ip Netaddr4.all_matching_cidrs
              Z (Z * Z)%type Netaddr4.ip_of_ident Netaddr4.network Netaddr4.contains
              netaddr4_contract
              demo_settings 100 (req_from "10.1.2.3" anonymous "GET")
              (busy_cache "10.1.2.3"))
    as (_ & _ & Hliteral & _ & _ & Hbypass).
  split.
  - apply (Hbypass [Some tier_2s; Some tier_3min]); reflexivity.
  - apply (Hliteral (IdStr "192.168.1.5") "192.168.1.5" (3232235781, 32) 3232235781).
    + reflexivity.
    + intros a. unfold Netaddr4.contains. cbn [fst snd].
      change (32 - 32) with 0. rewrite !Z.shiftr_0_r. apply Z.eqb_eq.
Defined.

(** The stand-in networks at work: a network entry, a single address, an
    entry that is no network, and an address outside every entry. *)
Example whitelist_entries :
  CommonThrottle.entry_matches Netaddr4.all_matching_cidrs
    (IdStr "10.1.2.3") (WStr "10.0.0.0/8") = true
  /\ CommonThrottle.entry_matches Netaddr4.all_matching_cidrs
       (IdStr "192.168.1.5") (WStr "192.168.1.5") = true
  /\ CommonThrottle.entry_matches Netaddr4.all_matching_cidrs
       (IdStr "10.1.2.3") (WStr "not-a-network") = false
  /\ CommonThrottle.is_whitelisted Netaddr4.all_matching_cidrs demo_settings
       (IdStr "11.1.2.3") = false.
Proof. repeat split; reflexivity. Qed.

Lemma unconfigured_scope_is_an_error_witness :
  (exists msg,
      demo_allow_request no_rates 0 (req_from "1.2.3.4" anonymous "GET") empty_cache
      = (Raise (ImproperlyConfigured msg), empty_cache))
  /\ demo_allow_request demo_settings 100 (req_from "11.1.2.3" anonymous "POST")
                        (busy_cache "11.1.2.3")
     = (Ok (true, None), busy_cache "11.1.2.3").
Proof.
  split.
  - apply (unconfigured_scope_is_an_error Netaddr4.get_ip Netaddr4.all_matching_cidrs
             no_rates 0 (req_from "1.2.3.4" anonymous "GET") empty_cache).
    reflexivity.
  - apply (unconfigured_scope_is_an_error Netaddr4.get_ip Netaddr4.all_matching_cidrs
             demo_settings 100 (req_from "11.1.2.3" anonymous "POST")
             (busy_cache "11.1.2.3")).
    left. reflexivity.
Defined.

Lemma rate_lookup_precedes_whitelist_witness :
  exists msg,
    demo_allow_request no_rates 0 (req_from "1.2.3.4" (member 7) "GET") empty_cache
    = (Raise (ImproperlyConfigured msg), empty_cache).
Proof.
  apply (rate_lookup_precedes_whitelist Netaddr4.get_ip Netaddr4.all_matching_cidrs
           no_rates 0 (req_from "1.2.3.4" (member 7) "GET") empty_cache);
    reflexivity.
Defined.

(** ** BaseThrottle.get_ident *)

(** C5, as the spec words it, fails on a forwarded header that is present
    but empty: with no proxy depth set the resolver returns the direct
    address, not the (empty) header. *)
Lemma empty_header_falls_back :
  HTTP_X_FORWARDED_FOR (req_xff "" "9.9.9.9") = Some ""
  /\ BaseThrottle.get_ident None (req_xff "" "9.9.9.9") = Ok (Some "9.9.9.9")
  /\ BaseThrottle.get_ident None (req_xff "" "9.9.9.9") <> Ok (Some "").
Proof. repeat split. discriminate. Qed.

(** C5 (amended).  With a positive proxy depth [n] and the header present
    the resolver splits it on commas and returns the stripped segment at
    index [len - min(n, len)]; with depth 0, or the header absent, it
    returns the direct address; with no depth set it returns the header
    with all its whitespace removed when the header is present and not
    empty, and the direct address otherwise.  Depth 2 on "1.1.1.1,
    2.2.2.2, 3.3.3.3" resolves to "2.2.2.2". *)
Theorem get_ident_resolution (request : Request) :
  let xff := HTTP_X_FORWARDED_FOR request in
  let remote_addr := REMOTE_ADDR request in
  (forall n h,
      0 < n -> xff = Some h ->
      let segments := Py.split_on "," h in
      let len := Z.of_nat (length segments) in
      exists seg,
        nth_error segments (Z.to_nat (len - Z.min n len)) = Some seg
        /\ BaseThrottle.get_ident (Some n) request = Ok (Some (Py.strip seg)))
  /\ (forall n, n = 0 \/ xff = None ->
                BaseThrottle.get_ident (Some n) request = Ok remote_addr)
  /\ (forall h, xff = Some h -> h <> EmptyString ->
                BaseThrottle.get_ident None request = Ok (Some (Py.drop_spaces h)))
  /\ (xff = None \/ xff = Some EmptyString ->
      BaseThrottle.get_ident None request = Ok remote_addr)
  /\ (forall addr,
        BaseThrottle.get_ident (Some 2) (req_xff "1.1.1.1, 2.2.2.2, 3.3.3.3" addr)
        = Ok (Some "2.2.2.2")).
Proof.
  intros xff remote_addr.
  split; [|split; [|split; [|split]]].
  - intros n h Hn Hx segments len.
    unfold BaseThrottle.get_ident. fold xff. rewrite Hx.
    assert (Hn0 : (n =? 0) = false) by (apply Z.eqb_neq; lia).
    rewrite Hn0. fold segments. fold len.
    pose proof (split_on_length "," h) as Hlen. fold segments in Hlen.
    destruct (index_from_end segments (Z.min n len)) as (seg & Hnth & Hidx);
      [unfold len; lia|].
    exists seg. split; [exact Hnth|].
    fold len in Hidx. rewrite Hidx. reflexivity.
  - intros n [->|Hx]; unfold BaseThrottle.get_ident; fold xff.
    + destruct xff; reflexivity.
    + rewrite Hx. reflexivity.
  - intros h Hx Hh. unfold BaseThrottle.get_ident. fold xff. rewrite Hx.
    destruct h as [|ch h]; [congruence|].
    cbn [Py.truthy option_map]. rewrite join_split_ws. reflexivity.
  - intros [Hx|Hx]; unfold BaseThrottle.get_ident; fold xff; rewrite Hx; reflexivity.
  - intros addr. reflexivity.
Qed.

Lemma get_ident_resolution_witness :
  exists seg,
    nth_error (Py.split_on "," "1.1.1.1, 2.2.2.2, 3.3.3.3") 1 = Some seg
    /\ BaseThrottle.get_ident (Some 2) (req_xff "1.1.1.1, 2.2.2.2, 3.3.3.3" "9.9.9.9")
       = Ok (Some (Py.strip seg)).
Proof.
  destruct (get_ident_resolution (req_xff "1.1.1.1, 2.2.2.2, 3.3.3.3" "9.9.9.9"))
    as [Hpos _].
  apply (Hpos 2 "1.1.1.1, 2.2.2.2, 3.3.3.3"); reflexivity.
Defined.

(** ** Scope variants and parsing, evaluated *)

(** Without a rate, or without a key, the request is admitted and the
    cache is not consulted. *)
Lemma allow_request_not_applicable
    (rate : option SimpleRateThrottle.Rate) (cache_key : option string)
    (timer : Q) (c : Cache) :
  rate = None \/ cache_key = None ->
  SimpleRateThrottle.allow_request rate cache_key timer c = (Ok (true, None), c).
Proof.
  intros [-> | ->]; [reflexivity|]. destruct rate; reflexivity.
Qed.

Example anon_key_for_member :
  AnonRateThrottle.get_cache_key None (req_from "1.2.3.4" (member 7) "GET") = Ok None
  /\ AnonRateThrottle.get_cache_key None (req_from "1.2.3.4" anonymous "GET")
     = Ok (Some key_K).
Proof. split; reflexivity. Qed.

(** A forwarded header carrying nothing but "1" puts an anonymous client
    on the key of user 1. *)
Example user_key_shared :
  UserRateThrottle.get_cache_key None (req_xff "1" "9.9.9.9")
  = UserRateThrottle.get_cache_key None (req_from "1.2.3.4" (member 1) "GET").
Proof. reflexivity. Qed.

Example parse_rate_samples :
  SimpleRateThrottle.parse_rate (Some "100/day")
  = Ok (Some {| SimpleRateThrottle.num_requests := 100;
                SimpleRateThrottle.duration := 86400 |})
  /\ SimpleRateThrottle.parse_rate (Some "5/s")
     = Ok (Some {| SimpleRateThrottle.num_requests := 5;
                   SimpleRateThrottle.duration := 1 |})
  /\ SimpleRateThrottle.parse_rate (Some "10") = Raise ValueError
  /\ SimpleRateThrottle.parse_rate (Some "ten/min") = Raise ValueError
  /\ SimpleRateThrottle.parse_rate (Some "10/") = Raise IndexError
  /\ SimpleRateThrottle.parse_rate (Some "10/week") = Raise KeyError
  /\ SimpleRateThrottle.parse_rate None = Ok None.
Proof. repeat split; reflexivity. Qed.

Example get_scope_samples :
  CommonThrottle.get_scope (req_from "1.2.3.4" (member 7) "PATCH") = "user-write"
  /\ CommonThrottle.get_scope (req_from "1.2.3.4" anonymous "GET") = "anon-read".
Proof. split; reflexivity. Qed.

(** * Further properties *)

(** ** Pruning, continued *)

Lemma prune_cons (now : Q) (d : Z) (x : Q) (t : list Q) :
  prune now d (x :: t)
  = match prune now d t with
    | [] => if expired now d x then [] else [x]
    | p => x :: p
    end.
Proof.
  induction t as [|y t IH] using rev_ind.
  - change [x] with ([] ++ [x]). rewrite prune_snoc, prune_nil. reflexivity.
  - rewrite app_comm_cons, !prune_snoc.
    destruct (expired now d y); [exact IH|].
    destruct (t ++ [y]) eqn:Ht; [|rewrite <- Ht; reflexivity].
    now apply app_eq_nil in Ht as [_ ?].
Qed.

Lemma expired_later (now1 now2 : Q) (d : Z) (e : Q) :
  (now1 <= now2)%Q -> expired now1 d e = true -> expired now2 d e = true.
Proof. rewrite !expired_iff. intros H1 H2. lra. Qed.

Lemma live_iff (now : Q) (d : Z) (e : Q) :
  live now d e = true <-> (now - inject_Z d < e)%Q.
Proof.
  unfold live. rewrite negb_true_iff. split.
  - intros H. apply Qnot_le_lt. rewrite <- expired_iff, H. discriminate.
  - intros H. destruct (expired now d e) eqn:He; [|reflexivity].
    apply expired_iff in He. lra.
Qed.

Lemma prune_prune_le (now1 now2 : Q) (d : Z) (h : list Q) :
  (now1 <= now2)%Q ->
  prune now2 d (prune now1 d h) = prune now2 d h.
Proof.
  intros Hle. induction h as [|x h IH] using rev_ind; [reflexivity|].
  rewrite (prune_snoc now1). destruct (expired now1 d x) eqn:Hx.
  - rewrite IH, prune_snoc, (expired_later now1 now2 d x Hle Hx). reflexivity.
  - reflexivity.
Qed.

(** X1. Pruning at an instant and then again at a later one leaves what
    pruning once at the later instant leaves, whatever the order of the
    entries; in particular pruning twice at one instant changes nothing
    more.  So it makes no difference to later decisions whether a refusal
    stored its pruned history or, as the code does, nothing. *)
Theorem prune_then_prune_later (now1 now2 : Q) (d : Z) (h : list Q) :
  (now1 <= now2)%Q ->
  prune now2 d (prune now1 d h) = prune now2 d h
  /\ prune now1 d (prune now1 d h) = prune now1 d h.
Proof.
  intros Hle. split; apply prune_prune_le; [exact Hle | apply Qle_refl].
Qed.

Lemma prune_then_prune_later_witness :
  prune 61 60 (prune 15 60 [10; 0; 70; -50]%Q) = prune 61 60 [10; 0; 70; -50]%Q.
Proof. apply prune_then_prune_later. discriminate. Defined.

Lemma prune_recent_first (now : Q) (d : Z) (h : list Q) :
  recent_first h -> prune now d h = List.filter (live now d) h.
Proof.
  induction 1 as [|x t Hs IH Hx]; [reflexivity|].
  rewrite prune_cons, IH. cbn [List.filter]. unfold live at 2.
  destruct (List.filter (live now d) t) as [|y p] eqn:Hf.
  - destruct (expired now d x); reflexivity.
  - assert (Hy : In y (List.filter (live now d) t)) by (rewrite Hf; now left).
    apply filter_In in Hy as [Hin Hlive].
    rewrite List.Forall_forall in Hx. specialize (Hx y Hin).
    apply live_iff in Hlive.
    destruct (expired now d x) eqn:Hex; [|reflexivity].
    apply expired_iff in Hex. lra.
Qed.

(** X2. On a history kept most recent first, the loop removes exactly
    the entries that have left the window: what remains is the history
    filtered by [entry > now - duration], and every remaining entry is
    inside the window. *)
Theorem prune_sorted_history (now : Q) (d : Z) (h : list Q) :
  recent_first h ->
  prune now d h = List.filter (fun e => negb (Qle_bool e (now - inject_Z d))) h
  /\ Forall (fun e => (now - inject_Z d < e)%Q) (prune now d h)
  /\ recent_first (prune now d h).
Proof.
  intros Hs. pose proof (prune_recent_first now d h Hs) as Hp.
  split; [exact Hp|]. split.
  - rewrite Hp. apply List.Forall_forall. intros e He.
    apply filter_In in He as [_ He]. now apply live_iff.
  - rewrite Hp. clear Hp. induction Hs as [|x t Hs IH Hx]; [constructor|].
    cbn [List.filter]. destruct (live now d x); [|exact IH].
    constructor; [exact IH|].
    apply List.Forall_forall. intros e He. apply filter_In in He as [He _].
    rewrite List.Forall_forall in Hx. now apply Hx.
Qed.

Lemma prune_sorted_history_witness :
  prune 61 60 [10; 5; 0; -3]%Q
  = List.filter (fun e => negb (Qle_bool e (61 - inject_Z 60))) [10; 5; 0; -3]%Q.
Proof.
  apply prune_sorted_history.
  repeat constructor; discriminate.
Defined.

(** ** Sequences of requests on one key *)

Lemma filter_weaker {A : Type} (f g : A -> bool) (l : list A) :
  (forall x, In x l -> f x = true -> g x = true) ->
  List.filter f (List.filter g l) = List.filter f l.
Proof.
  induction l as [|x l IH]; intros H; [reflexivity|].
  cbn [List.filter]. destruct (g x) eqn:Hg.
  - cbn [List.filter]. rewrite IH by (intros y Hy; apply H; now right).
    reflexivity.
  - rewrite IH by (intros y Hy; apply H; now right).
    destruct (f x) eqn:Hf; [|reflexivity].
    rewrite (H x (or_introl eq_refl) Hf) in Hg. discriminate.
Qed.

Lemma filter_recent_first (f : Q -> bool) (l : list Q) :
  recent_first l -> recent_first (List.filter f l).
Proof.
  induction 1 as [|x t Hs IH Hx]; [constructor|].
  cbn [List.filter]. destruct (f x); [|exact IH].
  constructor; [exact IH|].
  apply List.Forall_forall. intros e He. apply filter_In in He as [He _].
  rewrite List.Forall_forall in Hx. now apply Hx.
Qed.

Lemma current_window_recent_first (d : Z) (adm : list Q) :
  recent_first adm -> recent_first (current_window d adm).
Proof.
  destruct adm as [|t adm]; [constructor|]. apply filter_recent_first.
Qed.

Lemma admitted_nil : admitted [] [] = [].
Proof. reflexivity. Qed.

Lemma admitted_cons (t : Q) (b : bool) (timers : list Q) (ds : list bool) :
  admitted (t :: timers) (b :: ds)
  = if b then admitted timers ds ++ [t] else admitted timers ds.
Proof. unfold admitted. cbn [combine List.filter snd]. destruct b; reflexivity. Qed.

Section Serving.

Import SimpleRateThrottle.

Variables (r : Rate) (k : string).

Hypothesis window_positive : 0 < duration r.

Lemma serve_step (t : Q) (rest : list Q) (c : Cache) :
  serve (Some r) (Some k) (t :: rest) c
  = match allow_request (Some r) (Some k) t c with
    | (Ok d, c') =>
        match serve (Some r) (Some k) rest c' with
        | (Ok ds, c'') => (Ok (fst d :: ds), c'')
        | (Raise e, c'') => (Raise e, c'')
        end
    | (Raise e, c') => (Raise e, c')
    end.
Proof.
  cbn [serve]. unfold bind, ret.
  destruct (allow_request (Some r) (Some k) t c) as [[d|e] c']; [|reflexivity].
  destruct (serve (Some r) (Some k) rest c') as [[ds|e] c'']; reflexivity.
Qed.

Lemma live_now (t : Q) : live t (duration r) t = true.
Proof.
  apply live_iff.
  assert (0 < inject_Z (duration r))%Q by (unfold Qlt; simpl; lia).
  lra.
Qed.

(** What pruning at [t] leaves of the stored window, when [t] is not
    before the last admission. *)
Lemma prune_current_window (t : Q) (adm : list Q) :
  recent_first adm -> (forall a, In a adm -> (a <= t)%Q) ->
  prune t (duration r) (current_window (duration r) adm)
  = List.filter (live t (duration r)) adm.
Proof.
  intros Hs Hle.
  rewrite prune_recent_first by now apply current_window_recent_first.
  destruct adm as [|ta adm]; [reflexivity|].
  cbn [current_window]. apply filter_weaker.
  intros a Ha Hlive. apply live_iff. apply live_iff in Hlive.
  pose proof (Hle ta (or_introl eq_refl)). lra.
Qed.

(** The invariant of a key served at instants in clock order: the store
    holds the current window of the admitted instants, which are most
    recent first and within the rate. *)
Lemma serve_invariant (timers : list Q) :
  forall (c : Cache) (adm : list Q),
    chronological timers ->
    recent_first adm ->
    (forall t a, In t timers -> In a adm -> (a <= t)%Q) ->
    stored c k = current_window (duration r) adm ->
    within_rate (num_requests r) (duration r) adm ->
    exists ds c',
      serve (Some r) (Some k) timers c = (Ok ds, c')
      /\ length ds = length timers
      /\ stored c' k = current_window (duration r) (admitted timers ds ++ adm)
      /\ recent_first (admitted timers ds ++ adm)
      /\ within_rate (num_requests r) (duration r) (admitted timers ds ++ adm).
Proof.
  induction timers as [|t rest IH]; intros c adm Hchr Hs Hle Hst Hrate.
  - exists [], c. repeat split; assumption.
  - rewrite serve_step.
    inversion Hchr as [|? ? Hchr' Ht]; subst.
    assert (Hadm : forall a, In a adm -> (a <= t)%Q)
      by (intros a Ha; apply (Hle t a); [now left | exact Ha]).
    assert (Hp : prune t (duration r) (stored c k)
                 = List.filter (live t (duration r)) adm)
      by (rewrite Hst; now apply prune_current_window).
    destruct (Z_lt_le_dec
                (Z.of_nat (length (List.filter (live t (duration r)) adm)))
                (num_requests r)) as [Hlt|Hge].
    + rewrite allow_request_admit by (rewrite Hp; exact Hlt).
      rewrite Hp.
      destruct (IH {| store := <[k := (t :: List.filter (live t (duration r)) adm,
                                      duration r)]> (store c);
                      ops := ops c ++ [CacheGet k;
                                       CacheSet k (t :: List.filter (live t (duration r)) adm)
                                                (duration r)] |}
                   (t :: adm))
        as (ds & c' & Hrun & Hlen & Hst' & Hs' & Hrate').
      * exact Hchr'.
      * constructor; [exact Hs|]. apply List.Forall_forall. exact Hadm.
      * intros t' a Ht' [<-|Ha].
        -- rewrite List.Forall_forall in Ht. now apply Ht.
        -- apply (Hle t' a); [now right | exact Ha].
      * unfold stored. cbn [store]. rewrite lookup_insert_eq.
        cbn [current_window List.filter]. rewrite live_now. reflexivity.
      * cbn [within_rate List.filter]. rewrite live_now. cbn [length].
        split; [lia | exact Hrate].
      * exists (true :: ds), c'. rewrite Hrun. cbn [fst length].
        rewrite admitted_cons, <- app_assoc. cbn [app].
        repeat split; (assumption || now rewrite Hlen).
    + rewrite allow_request_deny by (rewrite Hp; exact Hge).
      destruct (IH {| store := store c; ops := ops c ++ [CacheGet k] |} adm)
        as (ds & c' & Hrun & Hlen & Hst' & Hs' & Hrate').
      * exact Hchr'.
      * exact Hs.
      * intros t' a Ht' Ha. apply (Hle t' a); [now right | exact Ha].
      * exact Hst.
      * exact Hrate.
      * exists (false :: ds), c'. rewrite Hrun. cbn [fst length].
        rewrite admitted_cons.
        repeat split; (assumption || now rewrite Hlen).
Qed.

End Serving.

Lemma within_rate_split (n d : Z) (adm newer older : list Q) (t : Q) :
  within_rate n d adm -> adm = newer ++ t :: older ->
  Z.of_nat (length (List.filter (live t d) (t :: older))) <= n.
Proof.
  revert adm. induction newer as [|x newer IH]; intros adm Hw ->.
  - exact (proj1 Hw).
  - apply (IH (newer ++ t :: older)); [exact (proj2 Hw) | reflexivity].
Qed.

(** X3. The rate limit holds over time.  When one key, fresh at the
    start, is asked at instants in clock order under a rate with a
    positive window, every call returns, and each admitted request,
    counted together with the admitted requests before it that are less
    than [duration] older, makes at most [num_requests]. *)
Theorem admissions_within_rate
    (r : SimpleRateThrottle.Rate) (k : string) (timers : list Q) (c : Cache) :
  0 < SimpleRateThrottle.duration r ->
  chronological timers ->
  stored c k = [] ->
  exists ds c',
    serve (Some r) (Some k) timers c = (Ok ds, c')
    /\ length ds = length timers
    /\ forall newer t older,
         admitted timers ds = newer ++ t :: older ->
         Z.of_nat (length (List.filter
                             (fun e => negb (Qle_bool e
                                (t - inject_Z (SimpleRateThrottle.duration r))))
                             (t :: older)))
         <= SimpleRateThrottle.num_requests r.
Proof.
  intros Hd Hchr Hst.
  destruct (serve_invariant r k Hd timers c [] Hchr) as (ds & c' & Hrun & Hlen & _ & _ & Hw).
  - constructor.
  - intros t a _ [].
  - exact Hst.
  - exact I.
  - exists ds, c'. split; [exact Hrun|]. split; [exact Hlen|].
    intros newer t older Heq. rewrite app_nil_r in Hw.
    exact (within_rate_split _ _ _ newer older t Hw Heq).
Qed.

Lemma admissions_within_rate_witness :
  exists ds c',
    serve (Some two_per_min) (Some key_K) [0; 10; 15; 61; 65]%Q empty_cache
    = (Ok ds, c')
    /\ length ds = 5%nat.
Proof.
  destruct (admissions_within_rate two_per_min key_K [0; 10; 15; 61; 65]%Q empty_cache)
    as (ds & c' & Hrun & Hlen & _).
  - reflexivity.
  - repeat constructor; discriminate.
  - reflexivity.
  - exists ds, c'. split; assumption.
Defined.

Example serve_two_per_min :
  fst (serve (Some two_per_min) (Some key_K) [0; 10; 15; 61; 65]%Q empty_cache)
  = Ok [true; true; false; true; false].
Proof. reflexivity. Qed.

(** X4. What the store holds.  Under the same conditions the history
    left under the key is exactly the admitted instants that lie inside
    the window ending at the last admission: it is most recent first,
    and never longer than [num_requests]. *)
Theorem stored_history_is_current_window
    (r : SimpleRateThrottle.Rate) (k : string) (timers : list Q) (c : Cache) :
  0 < SimpleRateThrottle.duration r ->
  chronological timers ->
  stored c k = [] ->
  exists ds c',
    serve (Some r) (Some k) timers c = (Ok ds, c')
    /\ stored c' k
       = current_window (SimpleRateThrottle.duration r) (admitted timers ds)
    /\ recent_first (stored c' k)
    /\ Z.of_nat (length (stored c' k)) <= Z.max 0 (SimpleRateThrottle.num_requests r).
Proof.
  intros Hd Hchr Hst.
  destruct (serve_invariant r k Hd timers c [] Hchr)
    as (ds & c' & Hrun & Hlen & Hst' & Hs & Hw).
  - constructor.
  - intros t a _ [].
  - exact Hst.
  - exact I.
  - rewrite app_nil_r in Hst', Hs, Hw.
    exists ds, c'. split; [exact Hrun|]. split; [exact Hst'|].
    rewrite Hst'. split; [now apply current_window_recent_first|].
    destruct (admitted timers ds) as [|t adm]; [simpl; lia|].
    cbn [current_window]. pose proof (proj1 Hw). lia.
Qed.

Lemma stored_history_is_current_window_witness :
  exists ds c',
    serve (Some two_per_min) (Some key_K) [0; 10; 15; 61; 65]%Q empty_cache
    = (Ok ds, c')
    /\ stored c' key_K = current_window 60 (admitted [0; 10; 15; 61; 65]%Q ds).
Proof.
  destruct (stored_history_is_current_window two_per_min key_K
              [0; 10; 15; 61; 65]%Q empty_cache)
    as (ds & c' & Hrun & Hst & _).
  - reflexivity.
  - repeat constructor; discriminate.
  - reflexivity.
  - exists ds, c'. split; assumption.
Defined.

(** ** After the window *)

Lemma prune_all_expired (now : Q) (d : Z) (h : list Q) :
  Forall (fun e => (e <= now - inject_Z d)%Q) h -> prune now d h = [].
Proof.
  induction h as [|x h IH] using rev_ind; [reflexivity|].
  intros H. apply Forall_app in H as [Hh Hx].
  rewrite prune_snoc.
  assert (Hex : expired now d x = true)
    by (apply expired_iff; now inversion Hx).
  rewrite Hex. now apply IH.
Qed.

(** X5. Once every stored entry is [duration] old or older, a request
    under a rate allowing at least one request is admitted whatever the
    number of stored entries, and the key then holds that request
    alone. *)
Theorem admitted_after_window
    (r : SimpleRateThrottle.Rate) (k : string) (timer : Q) (c : Cache) :
  1 <= SimpleRateThrottle.num_requests r ->
  Forall (fun e => (e <= timer - inject_Z (SimpleRateThrottle.duration r))%Q)
         (stored c k) ->
  exists c',
    SimpleRateThrottle.allow_request (Some r) (Some k) timer c
    = (Ok (true, Some {| SimpleRateThrottle.key := k;
                         SimpleRateThrottle.history := [timer];
                         SimpleRateThrottle.now := timer |}), c')
    /\ store c' !! k = Some ([timer], SimpleRateThrottle.duration r).
Proof.
  intros Hn Hall.
  pose proof (prune_all_expired timer _ _ Hall) as Hp.
  rewrite allow_request_admit by (rewrite Hp; simpl; lia).
  rewrite Hp. eexists. split; [reflexivity|].
  cbn [store]. apply lookup_insert_eq.
Qed.

Lemma admitted_after_window_witness :
  exists c',
    SimpleRateThrottle.allow_request (Some two_per_min) (Some key_K) 70 cache_0_10
    = (Ok (true, Some (attrs_at [70]%Q 70)), c')
    /\ store c' !! key_K = Some ([70]%Q, 60).
Proof.
  apply (admitted_after_window two_per_min key_K 70 cache_0_10).
  - discriminate.
  - repeat constructor; discriminate.
Defined.

(** ** The wait, once refused *)

Lemma allow_request_refused (r : SimpleRateThrottle.Rate) (k : string)
    (timer : Q) (c : Cache) (a : option SimpleRateThrottle.Attrs) (c' : Cache) :
  SimpleRateThrottle.allow_request (Some r) (Some k) timer c = (Ok (false, a), c') ->
  let p := prune timer (SimpleRateThrottle.duration r) (stored c k) in
  SimpleRateThrottle.num_requests r <= Z.of_nat (length p)
  /\ a = Some {| SimpleRateThrottle.key := k; SimpleRateThrottle.history := p;
                 SimpleRateThrottle.now := timer |}
  /\ store c' = store c.
Proof.
  intros Hrun p.
  destruct (Z_lt_le_dec (Z.of_nat (length p)) (SimpleRateThrottle.num_requests r))
    as [Hlt|Hge].
  - rewrite allow_request_admit in Hrun by exact Hlt. discriminate.
  - rewrite allow_request_deny in Hrun by exact Hge.
    injection Hrun as <- <-. repeat split. exact Hge.
Qed.

Lemma prune_subset (now : Q) (d : Z) (h : list Q) (e : Q) :
  In e (prune now d h) -> In e h.
Proof.
  destruct (prune_spec now d h) as (dropped & Heq & _).
  intros H. rewrite Heq. apply in_or_app. now left.
Qed.

Lemma oldest_in (h : list Q) (e : Q) : oldest h = Some e -> In e h.
Proof.
  destruct h as [|x h _] using rev_ind; [discriminate|].
  rewrite oldest_snoc. intros [= ->]. apply in_or_app. right. now left.
Qed.

Lemma Qdiv_pos (a : Q) (b : Z) : (0 < a)%Q -> 0 < b -> (0 < a / inject_Z b)%Q.
Proof.
  intros Ha Hb. apply Qlt_shift_div_l.
  - unfold Qlt; simpl; lia.
  - lra.
Qed.

(** X6. A refused client is never told to wait nothing.  After a
    refusal under a rate with a positive window, the single-tier wait,
    when there is one, is strictly positive; and when no stored entry is
    ahead of the clock it is at most the window. *)
Theorem wait_after_refusal_is_positive
    (r : SimpleRateThrottle.Rate) (k : string) (timer : Q) (c c' : Cache)
    (a : SimpleRateThrottle.Attrs) (w : Q) :
  0 < SimpleRateThrottle.duration r ->
  SimpleRateThrottle.allow_request (Some r) (Some k) timer c
  = (Ok (false, Some a), c') ->
  SimpleRateThrottle.wait r a = Some w ->
  (0 < w)%Q
  /\ (Forall (fun e => (e <= timer)%Q) (stored c k) ->
      (w <= inject_Z (SimpleRateThrottle.duration r))%Q).
Proof.
  intros Hd Hrun Hw.
  destruct (allow_request_refused r k timer c (Some a) c' Hrun) as (Hsat & [= ->] & _).
  unfold SimpleRateThrottle.wait in Hw.
  cbn [SimpleRateThrottle.history SimpleRateThrottle.now] in Hw.
  set (p := prune timer (SimpleRateThrottle.duration r) (stored c k)) in *.
  destruct (Z.leb_spec
              (SimpleRateThrottle.num_requests r - Z.of_nat (length p) + 1) 0)
    as [Hle|Hgt]; [discriminate|].
  injection Hw as <-.
  assert (Hone : SimpleRateThrottle.num_requests r - Z.of_nat (length p) + 1 = 1)
    by lia.
  rewrite Hone.
  assert (Hdq : (0 < inject_Z (SimpleRateThrottle.duration r))%Q)
    by (unfold Qlt; simpl; lia).
  destruct (oldest p) as [e|] eqn:He.
  - destruct (prune_spec timer (SimpleRateThrottle.duration r) (stored c k))
      as (dropped & _ & _ & Hlive).
    fold p in Hlive. specialize (Hlive e He).
    apply Qnot_le_lt in Hlive.
    split.
    + apply Qdiv_pos; [lra | lia].
    + intros Hpast. rewrite inject_Z_1.
      rewrite List.Forall_forall in Hpast.
      pose proof (Hpast e (prune_subset _ _ _ _ (oldest_in _ _ He))). lra.
  - split.
    + apply Qdiv_pos; [lra | lia].
    + intros _. rewrite inject_Z_1. apply Qle_refl.
Qed.

Lemma wait_after_refusal_is_positive_witness :
  (0 < 45)%Q /\ (Forall (fun e => (e <= 15)%Q) (stored cache_0_10 key_K) ->
                 (45 <= inject_Z 60)%Q).
Proof.
  apply (wait_after_refusal_is_positive two_per_min key_K 15 cache_0_10
           {| store := store cache_0_10; ops := [CacheGet key_K] |}
           (attrs_at [10; 0]%Q 15) 45%Q);
    reflexivity.
Defined.

(** X7. The wait is enough.  If a request is refused and the
    single-tier wait is [w], then under a rate allowing at least one
    request the same request made [w] seconds later, or at any later
    instant, is admitted, provided nothing was admitted on the key in
    between. *)
Theorem retry_after_wait_is_admitted
    (r : SimpleRateThrottle.Rate) (k : string) (timer later : Q) (c c' : Cache)
    (a : SimpleRateThrottle.Attrs) (w : Q) :
  1 <= SimpleRateThrottle.num_requests r ->
  SimpleRateThrottle.allow_request (Some r) (Some k) timer c
  = (Ok (false, Some a), c') ->
  SimpleRateThrottle.wait r a = Some w ->
  (timer + w <= later)%Q ->
  exists a' c'',
    SimpleRateThrottle.allow_request (Some r) (Some k) later c' = (Ok (true, a'), c'').
Proof.
  intros Hn Hrun Hw Hlater.
  destruct (allow_request_refused r k timer c (Some a) c' Hrun)
    as (Hsat & [= ->] & Hstore).
  unfold SimpleRateThrottle.wait in Hw.
  cbn [SimpleRateThrottle.history SimpleRateThrottle.now] in Hw.
  set (d := SimpleRateThrottle.duration r) in *.
  set (p := prune timer d (stored c k)) in *.
  destruct (Z.leb_spec
              (SimpleRateThrottle.num_requests r - Z.of_nat (length p) + 1) 0)
    as [Hle|Hgt]; [discriminate|].
  injection Hw as <-.
  assert (Hone : SimpleRateThrottle.num_requests r - Z.of_nat (length p) + 1 = 1)
    by lia.
  rewrite Hone in Hlater.
  destruct (oldest_nonempty p) as [e He]; [lia|].
  rewrite He in Hlater.
  assert (Hex : expired later d e = true).
  { apply expired_iff.
    pose proof (inject_Z_1 (inject_Z d - (timer - e))) as H1.
    rewrite H1 in Hlater. lra. }
  assert (Hw2 : (0 <= inject_Z d - (timer - e))%Q).
  { destruct (prune_spec timer d (stored c k)) as (_ & _ & _ & Hlive).
    fold p in Hlive. specialize (Hlive e He). apply Qnot_le_lt in Hlive. lra. }
  assert (Hle2 : (timer <= later)%Q).
  { pose proof (inject_Z_1 (inject_Z d - (timer - e))) as H1.
    rewrite H1 in Hlater. lra. }
  eexists _, _. apply allow_request_admit. fold d.
  assert (Hsame : stored c' k = stored c k) by (unfold stored; now rewrite Hstore).
  rewrite Hsame, <- (prune_prune_le timer later d (stored c k) Hle2). fold p.
  pose proof (prune_expired later d p e He Hex). lia.
Qed.

Lemma retry_after_wait_is_admitted_witness :
  exists a' c'',
    SimpleRateThrottle.allow_request (Some two_per_min) (Some key_K) 60
      {| store := store cache_0_10; ops := [CacheGet key_K] |}
    = (Ok (true, a'), c'').
Proof.
  apply (retry_after_wait_is_admitted two_per_min key_K 15 60 cache_0_10
           {| store := store cache_0_10; ops := [CacheGet key_K] |}
           (attrs_at [10; 0]%Q 15) 45%Q);
    [discriminate | reflexivity | reflexivity | discriminate].
Defined.

(** ** CommonThrottle: what a call can do to the cache *)

Section Reads.

Import CommonThrottle.

Variables (ident : Ident) (scope : string) (now : Q).

(** The first loop, on any list of tiers and whatever its outcome, only
    reads. *)
Lemma check_tiers_reads (rates : list (option Rate)) :
  forall (waits : list Q) (hws : list HistoryWrite) (c : Cache),
  exists keys,
    snd (check_tiers ident scope now rates waits hws c)
    = {| store := store c; ops := ops c ++ map CacheGet keys |}.
Proof.
  induction rates as [|[t|] rates IH]; intros waits hws c.
  - exists []. cbn. rewrite app_nil_r. destruct c; reflexivity.
  - cbn [check_tiers]. unfold bind at 1, cache_get at 1.
    match goal with
    | |- context [check_tiers _ _ _ _ ?w ?h ?c1] =>
        destruct (IH w h c1) as [keys Hk]
    end.
    exists (get_cache_key ident scope (rate_name t) :: keys).
    rewrite Hk. cbn [store ops map]. rewrite <- app_assoc. reflexivity.
  - exists []. cbn. rewrite app_nil_r. destruct c; reflexivity.
Qed.

Lemma check_tiers_none (rates : list (option Rate)) :
  In None rates ->
  forall (waits : list Q) (hws : list HistoryWrite) (c : Cache),
    fst (check_tiers ident scope now rates waits hws c) = Raise TypeError.
Proof.
  induction rates as [|[t|] rates IH]; intros Hin waits hws c.
  - destruct Hin.
  - destruct Hin as [Hin|Hin]; [discriminate|].
    cbn [check_tiers]. unfold bind at 1, cache_get at 1. now apply IH.
  - reflexivity.
Qed.

End Reads.

Section NoPartialWrite.

Import CommonThrottle.

Variable get_ip : Request -> option string.
Variable all_matching_cidrs : Ident -> list string -> option (list string).

Local Abbreviation get_ident := (CommonThrottle.get_ident get_ip).
Local Abbreviation is_whitelisted := (CommonThrottle.is_whitelisted all_matching_cidrs).
Local Abbreviation allow_request := (CommonThrottle.allow_request get_ip all_matching_cidrs).

Variables (cfg : Settings) (timer : Q) (request : Request).

(** The body of [allow_request], one outcome per branch. *)
Lemma allow_request_cases (c : Cache) :
  allow_request cfg timer request c
  = match get_rates cfg (get_scope request) with
    | Raise e => (Raise e, c)
    | Ok rates =>
        if is_whitelisted cfg (get_ident request) then (Ok (true, None), c)
        else
          match rates with
          | [] => (Ok (true, None), c)
          | _ :: _ =>
              match check_tiers (get_ident request) (get_scope request) timer
                      rates [] [] c with
              | (Raise e, c1) => (Raise e, c1)
              | (Ok r, c1) =>
                  match Py.max (fst r) with
                  | Some w => (Ok (false, Some w), c1)
                  | None =>
                      (Ok (true, None),
                       snd (write_histories timer (snd r) c1))
                  end
              end
          end
    end.
Proof.
  unfold CommonThrottle.allow_request, bind, lift, ret.
  destruct (get_rates cfg (get_scope request)) as [rates|e]; [|reflexivity].
  destruct (is_whitelisted cfg (get_ident request)); [reflexivity|].
  destruct rates as [|rt rates]; [reflexivity|].
  destruct (check_tiers _ _ _ (rt :: rates) [] [] c) as [[r|e] c1]; [|reflexivity].
  destruct (Py.max (fst r)); [reflexivity|].
  rewrite write_histories_run. reflexivity.
Qed.

(** X8. No partial writes.  Whatever the settings, the request and the
    cache, a call that does not return [True] (a refusal, or any
    exception, raised by the rate lookup or in the middle of the loop)
    leaves the store as it was: all it may have done is read keys. *)
Theorem store_written_only_on_admission (c : Cache) :
  let run := allow_request cfg timer request c in
  fst run <> Ok (true, None) ->
  exists keys,
    snd run = {| store := store c; ops := ops c ++ map CacheGet keys |}.
Proof.
  intros run. unfold run. clear run. rewrite allow_request_cases.
  assert (Hsame : exists keys : list string,
             c = {| store := store c; ops := ops c ++ map CacheGet keys |}).
  { exists []. cbn. rewrite app_nil_r. destruct c; reflexivity. }
  destruct (get_rates cfg (get_scope request)) as [rates|e]; [|intros _; exact Hsame].
  destruct (is_whitelisted cfg (get_ident request)); [intros Hne; now elim Hne|].
  destruct rates as [|rt rates]; [intros Hne; now elim Hne|].
  destruct (check_tiers_reads (get_ident request) (get_scope request) timer
              (rt :: rates) [] [] c) as [keys Hk].
  destruct (check_tiers _ _ _ (rt :: rates) [] [] c) as [[res|e] c1];
    cbn [snd] in Hk; subst c1.
  - destruct (Py.max (fst res)) as [w|].
    + intros _. exists keys. reflexivity.
    + intros Hne. now elim Hne.
  - intros _. exists keys. reflexivity.
Qed.

(** X9. A [None] among the rates of a scope is not skipped: for an
    identity that is not whitelisted the call raises [TypeError], having
    written nothing. *)
Theorem none_tier_raises (rates : list (option Rate)) (c : Cache) :
  get_rates cfg (get_scope request) = Ok rates ->
  In None rates ->
  is_whitelisted cfg (get_ident request) = false ->
  fst (allow_request cfg timer request c) = Raise TypeError
  /\ store (snd (allow_request cfg timer request c)) = store c.
Proof.
  intros Hr Hin Hw. rewrite allow_request_cases, Hr, Hw.
  destruct rates as [|rt rates]; [destruct Hin|].
  pose proof (check_tiers_none (get_ident request) (get_scope request) timer
                (rt :: rates) Hin [] [] c) as Hfst.
  destruct (check_tiers_reads (get_ident request) (get_scope request) timer
              (rt :: rates) [] [] c) as [keys Hk].
  destruct (check_tiers _ _ _ (rt :: rates) [] [] c) as [res c1].
  cbn [fst snd] in *. subst res c1. split; reflexivity.
Qed.

End NoPartialWrite.

Lemma store_written_only_on_admission_witness :
  exists keys,
    snd (demo_allow_request demo_settings 100 (req_from "11.1.2.3" anonymous "GET")
           (busy_cache "11.1.2.3"))
    = {| store := store (busy_cache "11.1.2.3");
         ops := ops (busy_cache "11.1.2.3") ++ map CacheGet keys |}.
Proof.
  apply (store_written_only_on_admission Netaddr4.get_ip Netaddr4.all_matching_cidrs
           demo_settings 100 (req_from "11.1.2.3" anonymous "GET")
           (busy_cache "11.1.2.3")).
  intros H. vm_compute in H. discriminate.
Defined.

Lemma none_tier_raises_witness :
  fst (demo_allow_request none_tier_settings 100
         (req_from "11.1.2.3" anonymous "GET") (busy_cache "11.1.2.3"))
  = Raise TypeError.
Proof.
  apply (none_tier_raises Netaddr4.get_ip Netaddr4.all_matching_cidrs
           none_tier_settings 100 (req_from "11.1.2.3" anonymous "GET")
           [Some tier_2s; None] (busy_cache "11.1.2.3"));
    [reflexivity | right; left; reflexivity | reflexivity].
Defined.

(** ** CommonThrottle: waits and retries *)

Lemma wait_time_empty (t : CommonThrottle.Rate) (now : Q) :
  CommonThrottle.rate_num_requests t <= 0 ->
  (CommonThrottle.wait_time [] t now == inject_Z (CommonThrottle.rate_duration t))%Q.
Proof.
  intros Hc. unfold CommonThrottle.wait_time. cbn [oldest map List.last length].
  destruct (Z.leb_spec (CommonThrottle.rate_num_requests t - Z.of_nat 0 + 1) 0)
    as [Hle|Hgt]; [reflexivity|].
  replace (CommonThrottle.rate_num_requests t - Z.of_nat 0 + 1) with 1 by lia.
  apply inject_Z_1.
Qed.

(** The wait of a refusing tier, computed on its pruned history, is
    positive when its window is. *)
Lemma wait_time_refusing_positive (h : list Q) (t : CommonThrottle.Rate) (now : Q) :
  0 < CommonThrottle.rate_duration t ->
  CommonThrottle.rate_num_requests t
  <= Z.of_nat (length (prune now (CommonThrottle.rate_duration t) h)) ->
  (0 < CommonThrottle.wait_time (prune now (CommonThrottle.rate_duration t) h) t now)%Q.
Proof.
  intros Hd Hsat.
  assert (Hdq : (0 < inject_Z (CommonThrottle.rate_duration t))%Q)
    by (unfold Qlt; simpl; lia).
  destruct (prune now (CommonThrottle.rate_duration t) h) as [|x p] eqn:Hp.
  - rewrite wait_time_empty by (simpl in Hsat; lia). exact Hdq.
  - destruct (oldest_nonempty (x :: p)) as [e He]; [simpl; lia|].
    rewrite (wait_time_saturated _ t now e Hsat He).
    destruct (prune_spec now (CommonThrottle.rate_duration t) h)
      as (_ & _ & _ & Hlive).
    rewrite Hp in Hlive. specialize (Hlive e He). apply Qnot_le_lt in Hlive. lra.
Qed.

Lemma filter_nil_forall {A : Type} (f : A -> bool) (l : list A) :
  List.filter f l = [] -> forall x, In x l -> f x = false.
Proof.
  intros Hf x Hx. destruct (f x) eqn:Hfx; [|reflexivity].
  assert (Hin : In x (List.filter f l)) by (apply filter_In; now split).
  rewrite Hf in Hin. destruct Hin.
Qed.

Lemma forall_filter_nil {A : Type} (f : A -> bool) (l : list A) :
  (forall x, In x l -> f x = false) -> List.filter f l = [].
Proof.
  induction l as [|x l IH]; intros H; [reflexivity|].
  cbn [List.filter]. rewrite (H x (or_introl eq_refl)).
  apply IH. intros y Hy. apply H. now right.
Qed.

Lemma get_rates_windows (cfg : Settings) (scope : string)
    (rs : list (option CommonThrottle.Rate)) (t : CommonThrottle.Rate) :
  CommonThrottle.get_rates cfg scope = Ok rs -> In (Some t) rs ->
  0 < CommonThrottle.rate_duration t.
Proof.
  intros Hr Hin.
  pose proof (parse_rate_window _ t (get_rates_names cfg scope rs Hr t Hin)) as Hw.
  simpl in Hw. lia.
Qed.

Section Retry.

Import CommonThrottle.

Variable get_ip : Request -> option string.
Variable all_matching_cidrs : Ident -> list string -> option (list string).

Local Abbreviation get_ident := (CommonThrottle.get_ident get_ip).
Local Abbreviation is_whitelisted := (CommonThrottle.is_whitelisted all_matching_cidrs).
Local Abbreviation allow_request := (CommonThrottle.allow_request get_ip all_matching_cidrs).

Variables (cfg : Settings) (request : Request) (tiers : list Rate).

Hypothesis rates_configured :
  get_rates cfg (get_scope request) = Ok (map Some tiers).
Hypothesis not_whitelisted : is_whitelisted cfg (get_ident request) = false.

Local Abbreviation scope := (get_scope request).
Local Abbreviation ident := (get_ident request).

(** What a refusal tells about the tiers. *)
Lemma refusal_inversion (timer : Q) (c c' : Cache) (w : Q) :
  allow_request cfg timer request c = (Ok (false, Some w), c') ->
  store c' = store c
  /\ In w (map (fun t => wait_time (tier_history ident scope timer c t) t timer)
               (List.filter (tier_denies ident scope timer c) tiers))
  /\ Forall (fun x => (x <= w)%Q)
            (map (fun t => wait_time (tier_history ident scope timer c t) t timer)
                 (List.filter (tier_denies ident scope timer c) tiers)).
Proof.
  intros Hrun.
  destruct tiers as [|t0 ts] eqn:Ht.
  - rewrite allow_request_unthrottled in Hrun by exact rates_configured.
    discriminate.
  - rewrite <- Ht in *.
    rewrite (allow_request_tiers get_ip all_matching_cidrs cfg timer request tiers c
               rates_configured) in Hrun
      by (congruence || exact not_whitelisted).
    cbv zeta in Hrun.
    destruct (Py.max _) as [w'|] eqn:Hmax; [|discriminate].
    injection Hrun as -> <-.
    split; [reflexivity|]. now apply max_spec.
Qed.

(** X10. After a refusal by the tiers the wait handed to [self._wait]
    is strictly positive. *)
Theorem common_wait_is_positive (timer : Q) (c c' : Cache) (w : Q) :
  allow_request cfg timer request c = (Ok (false, Some w), c') ->
  (0 < w)%Q.
Proof.
  intros Hrun.
  destruct (refusal_inversion timer c c' w Hrun) as (_ & Hin & _).
  apply in_map_iff in Hin as (t & <- & Ht).
  apply filter_In in Ht as [Hin Hden].
  unfold tier_history. apply wait_time_refusing_positive.
  - apply (get_rates_windows cfg scope _ t rates_configured). now apply in_map.
  - apply geb_true. exact Hden.
Qed.

(** X11. The multi-tier wait is enough.  If no tier holds more entries
    than its count and every count is at least one, then after a refusal
    with wait [w] the same request made [w] seconds later, or at any
    later instant, is admitted by every tier, provided nothing was
    admitted on its keys in between. *)
Theorem tiers_admit_after_wait
    (timer later : Q) (c c' : Cache) (w : Q) :
  (forall t, In t tiers -> 1 <= rate_num_requests t) ->
  (forall t, In t tiers ->
     Z.of_nat (length (tier_history ident scope timer c t)) <= rate_num_requests t) ->
  allow_request cfg timer request c = (Ok (false, Some w), c') ->
  (timer + w <= later)%Q ->
  exists c'', allow_request cfg later request c' = (Ok (true, None), c'').
Proof.
  intros Hone Hfull Hrun Hlater.
  destruct (refusal_inversion timer c c' w Hrun) as (Hstore & Hin & Hmax).
  assert (Hw : (0 < w)%Q).
  { apply in_map_iff in Hin as (t & <- & Ht).
    apply filter_In in Ht as [Hint Hden].
    unfold tier_history. apply wait_time_refusing_positive.
    - apply (get_rates_windows cfg scope _ t rates_configured). now apply in_map.
    - apply geb_true. exact Hden. }
  assert (Hle : (timer <= later)%Q) by lra.
  assert (Hne : tiers <> []).
  { intros ->. rewrite allow_request_unthrottled in Hrun by exact rates_configured.
    discriminate. }
  rewrite (allow_request_tiers get_ip all_matching_cidrs cfg later request tiers c'
             rates_configured Hne not_whitelisted).
  cbv zeta.
  assert (Hnone : List.filter (tier_denies ident scope later c') tiers = []).
  { apply forall_filter_nil. intros t Hint.
    unfold tier_denies. apply geb_false.
    assert (Hhist : tier_history ident scope later c' t
                    = prune later (rate_duration t) (tier_history ident scope timer c t)).
    { unfold tier_history, stored. rewrite Hstore.
      symmetry. now apply prune_prune_le. }
    rewrite Hhist.
    destruct (tier_denies ident scope timer c t) eqn:Hden.
    - pose proof (proj1 (geb_true _ _) Hden) as Hsat. fold (tier_history ident scope timer c t) in Hsat.
      destruct (oldest_nonempty (tier_history ident scope timer c t)) as [e He].
      { pose proof (Hone t Hint). unfold tier_denies in Hden. lia. }
      assert (Hwt : (wait_time (tier_history ident scope timer c t) t timer <= w)%Q).
      { rewrite List.Forall_forall in Hmax. apply Hmax.
        apply (in_map (fun t => wait_time (tier_history ident scope timer c t) t timer)).
        apply filter_In. now split. }
      rewrite (wait_time_saturated _ t timer e Hsat He) in Hwt.
      assert (Hex : expired later (rate_duration t) e = true)
        by (apply expired_iff; lra).
      pose proof (prune_expired later (rate_duration t) _ e He Hex).
      pose proof (Hfull t Hint). lia.
    - pose proof (proj1 (geb_false _ _) Hden) as Hlt.
      fold (tier_history ident scope timer c t) in Hlt.
      pose proof (prune_length later (rate_duration t)
                    (tier_history ident scope timer c t)). lia. }
  rewrite Hnone. cbn [map Py.max]. eexists. reflexivity.
Qed.

End Retry.

Lemma common_wait_is_positive_witness : (0 < 10)%Q.
Proof.
  apply (common_wait_is_positive Netaddr4.get_ip Netaddr4.all_matching_cidrs
           demo_settings (req_from "11.1.2.3" anonymous "GET") [tier_2s; tier_3min]
           eq_refl eq_refl 100 (busy_cache "11.1.2.3")
           {| store := store (busy_cache "11.1.2.3");
              ops := [CacheGet (demo_key "11.1.2.3" "2/s");
                      CacheGet (demo_key "11.1.2.3" "3/min")] |}).
  reflexivity.
Defined.

Lemma tiers_admit_after_wait_witness :
  exists c'',
    demo_allow_request demo_settings 110 (req_from "11.1.2.3" anonymous "GET")
      {| store := store (busy_cache "11.1.2.3");
         ops := [CacheGet (demo_key "11.1.2.3" "2/s");
                 CacheGet (demo_key "11.1.2.3" "3/min")] |}
    = (Ok (true, None), c'').
Proof.
  apply (tiers_admit_after_wait
           Netaddr4.get_ip Netaddr4.all_matching_cidrs
           demo_settings (req_from "11.1.2.3" anonymous "GET") [tier_2s; tier_3min]
           eq_refl eq_refl 100 110 (busy_cache "11.1.2.3") _ 10%Q).
  - intros t [<-|[<-|[]]]; discriminate.
  - intros t [<-|[<-|[]]]; discriminate.
  - reflexivity.
  - discriminate.
Defined.

(** ** CommonThrottle: keys and stored histories *)

(** X12. Buckets of different scopes never meet.  Whatever the
    identities and the tier names, two keys built for requests of
    different composite scopes differ: an anonymous client cannot land on
    the history of an authenticated user, nor a read on that of a
    write. *)
Theorem common_keys_separate_scopes
    (request request' : Request) (ident ident' : Ident) (rate rate' : string) :
  CommonThrottle.get_cache_key ident (CommonThrottle.get_scope request) rate
  = CommonThrottle.get_cache_key ident' (CommonThrottle.get_scope request') rate' ->
  CommonThrottle.get_scope request = CommonThrottle.get_scope request'
  /\ is_authenticated (user request) = is_authenticated (user request').
Proof.
  intros Hkey. unfold CommonThrottle.get_cache_key in Hkey.
  apply append_inj_l in Hkey.
  destruct (field_inj _ _ _ _ (get_scope_no_underscore request)
              (get_scope_no_underscore request') Hkey) as [Hscope _].
  split; [exact Hscope|].
  unfold CommonThrottle.get_scope in Hscope.
  destruct (is_authenticated (user request)), (is_authenticated (user request'));
    try reflexivity;
    destruct (existsb _ _), (existsb _ _); discriminate.
Qed.

Lemma common_keys_separate_scopes_witness :
  CommonThrottle.get_scope (req_from "1.2.3.4" (member 1) "GET")
  = CommonThrottle.get_scope (req_from "9.9.9.9" (member 1) "HEAD").
Proof.
  apply (common_keys_separate_scopes
           (req_from "1.2.3.4" (member 1) "GET") (req_from "9.9.9.9" (member 1) "HEAD")
           (IdInt 1) (IdInt 1) "2/s" "2/s").
  reflexivity.
Defined.

(** Entries collected for tiers of one scope: one key, one entry. *)
Lemma tier_writes_consistent (cfg : Settings) (ident : Ident) (scope : string)
    (now : Q) (c : Cache) (tiers : list CommonThrottle.Rate) :
  CommonThrottle.get_rates cfg scope = Ok (map Some tiers) ->
  forall a b,
    In a (map (CommonThrottle.tier_write ident scope now c) tiers) ->
    In b (map (CommonThrottle.tier_write ident scope now c) tiers) ->
    CommonThrottle.hw_key a = CommonThrottle.hw_key b -> a = b.
Proof.
  intros Hr a b Ha Hb Hkey.
  apply in_map_iff in Ha as (ta & <- & Hta).
  apply in_map_iff in Hb as (tb & <- & Htb).
  cbn [CommonThrottle.hw_key CommonThrottle.tier_write] in Hkey.
  unfold CommonThrottle.tier_key in Hkey.
  apply get_cache_key_rate_inj in Hkey.
  assert (Some ta = Some tb) as [= ->]; [|reflexivity].
  assert (Hpa := get_rates_names cfg scope _ Hr ta (in_map Some _ _ Hta)).
  assert (Hpb := get_rates_names cfg scope _ Hr tb (in_map Some _ _ Htb)).
  rewrite Hkey in Hpa. congruence.
Qed.

Section Overfill.

Import CommonThrottle.

Variable get_ip : Request -> option string.
Variable all_matching_cidrs : Ident -> list string -> option (list string).

Local Abbreviation get_ident := (CommonThrottle.get_ident get_ip).
Local Abbreviation allow_request := (CommonThrottle.allow_request get_ip all_matching_cidrs).

(** X13. Tiers never over-fill.  If no tier of the request's scope
    holds more entries than its count, then after a call, whatever its
    instant and its outcome, none does. *)
Theorem tiers_never_overfill
    (cfg : Settings) (timer : Q) (request : Request) (tiers : list Rate) (c : Cache) :
  let scope := get_scope request in
  let ident := get_ident request in
  get_rates cfg scope = Ok (map Some tiers) ->
  (forall t, In t tiers ->
     Z.of_nat (length (stored c (tier_key ident scope t)))
     <= Z.max 0 (rate_num_requests t)) ->
  forall t, In t tiers ->
    Z.of_nat (length (stored (snd (allow_request cfg timer request c))
                             (tier_key ident scope t)))
    <= Z.max 0 (rate_num_requests t).
Proof.
  intros scope ident Hr Hinv t Hin.
  rewrite (allow_request_cases get_ip all_matching_cidrs).
  fold scope ident. rewrite Hr.
  destruct (CommonThrottle.is_whitelisted all_matching_cidrs cfg ident);
    [now apply Hinv|].
  destruct tiers as [|t0 ts]; [destruct Hin|].
  change (map Some (t0 :: ts)) with (Some t0 :: map Some ts).
  cbv iota. change (Some t0 :: map Some ts) with (map Some (t0 :: ts)).
  rewrite check_tiers_run. cbn [fst snd app].
  destruct (Py.max _) as [w|] eqn:Hmax.
  - cbn [snd]. rewrite stored_same_store. now apply Hinv.
  - cbn [snd]. rewrite write_histories_run. cbn [snd].
    apply max_none in Hmax.
    apply map_eq_nil in Hmax.
    pose proof (filter_nil_forall _ _ Hmax t Hin) as Hden.
    unfold tier_denies in Hden. apply geb_false in Hden.
    unfold stored at 1. cbn [store].
    rewrite (write_all_lookup timer _ (tier_write ident scope timer c t)).
    + cbn [hw_history tier_write length]. lia.
    + now apply (tier_writes_consistent cfg).
    + now apply in_map.
Qed.

End Overfill.

Lemma tiers_never_overfill_witness :
  Z.of_nat (length (stored
    (snd (demo_allow_request demo_settings 100
            (req_from "11.1.2.3" anonymous "GET") (quiet_cache "11.1.2.3")))
    (CommonThrottle.tier_key (IdStr "11.1.2.3") "anon-read" tier_3min)))
  <= Z.max 0 (CommonThrottle.rate_num_requests tier_3min).
Proof.
  apply (tiers_never_overfill Netaddr4.get_ip Netaddr4.all_matching_cidrs
           demo_settings 100 (req_from "11.1.2.3" anonymous "GET")
           [tier_2s; tier_3min] (quiet_cache "11.1.2.3")).
  - reflexivity.
  - intros t [<-|[<-|[]]]; discriminate.
  - right. left. reflexivity.
Defined.

(** ** Rate strings *)

Lemma lstrip_no_space (s : string) : no_space s = true -> Py.lstrip s = s.
Proof.
  destruct s as [|c s]; [reflexivity|]. cbn [no_space Py.lstrip].
  intros H. apply andb_prop in H as [Hc _].
  apply negb_true_iff in Hc. now rewrite Hc.
Qed.

Lemma rstrip_no_space (s : string) : no_space s = true -> Py.rstrip s = s.
Proof.
  induction s as [|c s IH]; [reflexivity|]. cbn [no_space Py.rstrip].
  intros H. apply andb_prop in H as [Hc Hs].
  apply negb_true_iff in Hc. rewrite (IH Hs), Hc.
  destruct s; reflexivity.
Qed.

Lemma strip_no_space (s : string) : no_space s = true -> Py.strip s = s.
Proof.
  intros H. unfold Py.strip. rewrite (lstrip_no_space s H). now apply rstrip_no_space.
Qed.

Lemma ascii_space_is_space (c : ascii) :
  Py.is_ascii_space c = true -> Py.is_space c = true.
Proof. destruct c as [[] [] [] [] [] [] [] []]; (reflexivity || discriminate). Qed.

Lemma lstrip_by_no_space (s : string) :
  no_space s = true -> Py.lstrip_by Py.is_ascii_space s = s.
Proof.
  destruct s as [|c s]; [reflexivity|]. cbn [no_space Py.lstrip_by].
  intros H. apply andb_prop in H as [Hc _]. apply negb_true_iff in Hc.
  destruct (Py.is_ascii_space c) eqn:Ha; [|reflexivity].
  apply ascii_space_is_space in Ha. congruence.
Qed.

Lemma rstrip_by_no_space (s : string) :
  no_space s = true -> Py.rstrip_by Py.is_ascii_space s = s.
Proof.
  induction s as [|c s IH]; [reflexivity|]. cbn [no_space Py.rstrip_by].
  intros H. apply andb_prop in H as [Hc Hs]. apply negb_true_iff in Hc.
  rewrite (IH Hs).
  destruct (Py.is_ascii_space c) eqn:Ha.
  - apply ascii_space_is_space in Ha. congruence.
  - destruct s; reflexivity.
Qed.

(** A string without whitespace is parsed as it stands. *)
Lemma int_trim_no_space (s : string) : no_space s = true -> Py.int_trim s = s.
Proof.
  intros H. unfold Py.int_trim. destruct (Py.is_ascii s).
  - rewrite (lstrip_by_no_space s H). now apply rstrip_by_no_space.
  - now apply strip_no_space.
Qed.

Lemma uint_no_space (d : Decimal.uint) : no_space (NilEmpty.string_of_uint d) = true.
Proof. induction d; cbn [NilEmpty.string_of_uint no_space]; auto. Qed.

Lemma uint_lacks_slash (d : Decimal.uint) :
  lacks "/" (NilEmpty.string_of_uint d) = true.
Proof. induction d; cbn [NilEmpty.string_of_uint lacks]; auto. Qed.

Lemma int_digits_acc (d : Decimal.uint) :
  forall acc : positive,
    Py.int_digits (Z.pos acc) true (NilEmpty.string_of_uint d)
    = Some (Z.pos (Pos.of_uint_acc d acc)).
Proof.
  induction d as [|d IH|d IH|d IH|d IH|d IH|d IH|d IH|d IH|d IH|d IH]; intros acc;
    [reflexivity|..];
    cbn [NilEmpty.string_of_uint Py.int_digits Pos.of_uint_acc];
    match goal with
    | |- context [Py.digit_of ?c] =>
        let v := eval vm_compute in (Py.digit_of c) in
        change (Py.digit_of c) with v
    end;
    cbv iota; rewrite <- IH; f_equal; lia.
Qed.

Lemma int_digits_zero (d : Decimal.uint) :
  forall b : bool,
    d <> Decimal.Nil \/ b = true ->
    Py.int_digits 0 b (NilEmpty.string_of_uint d) = Some (Z.of_N (Pos.of_uint d)).
Proof.
  induction d as [|d IH|d IH|d IH|d IH|d IH|d IH|d IH|d IH|d IH|d IH]; intros b Hb.
  - destruct Hb as [Hb | ->]; [congruence | reflexivity].
  - cbn [NilEmpty.string_of_uint Py.int_digits Pos.of_uint].
    change (Py.digit_of "0") with (Some 0). cbv iota.
    change (10 * 0 + 0) with 0. apply IH. now right.
  - apply (int_digits_acc d 1).
  - apply (int_digits_acc d 2).
  - apply (int_digits_acc d 3).
  - apply (int_digits_acc d 4).
  - apply (int_digits_acc d 5).
  - apply (int_digits_acc d 6).
  - apply (int_digits_acc d 7).
  - apply (int_digits_acc d 8).
  - apply (int_digits_acc d 9).
Qed.

(** [int] on a string that is its own strip and starts with no sign. *)
Lemma int_unsigned (c : ascii) (r : string) (n : Z) :
  Py.int_trim (String c r) = String c r ->
  Py.digit_of c <> None ->
  Py.int_digits 0 false (String c r) = Some n ->
  Py.int (String c r) = Ok n.
Proof.
  intros Hs Hc Hn. unfold Py.int. rewrite Hs.
  destruct c as [[] [] [] [] [] [] [] []];
    try (exfalso; apply Hc; reflexivity);
    cbv iota; rewrite Hn; reflexivity.
Qed.

Lemma int_of_pos (p : positive) : Py.int (Py.str_of_int (Z.pos p)) = Ok (Z.pos p).
Proof.
  unfold Py.str_of_int. cbn [Z.to_int NilZero.string_of_int].
  pose proof (DecimalPos.Unsigned.to_uint_nonnil p) as Hnil.
  pose proof (DecimalPos.Unsigned.of_to p) as Hval.
  pose proof (uint_no_space (Pos.to_uint p)) as Hsp.
  pose proof (int_digits_zero (Pos.to_uint p) false (or_introl Hnil)) as Hd.
  rewrite Hval in Hd. cbn [Z.of_N] in Hd.
  unfold NilZero.string_of_uint.
  destruct (Pos.to_uint p) as [|d|d|d|d|d|d|d|d|d|d]; [congruence|..];
    (apply int_unsigned;
     [apply int_trim_no_space; exact Hsp | discriminate | exact Hd]).
Qed.

(** [int(str(n)) == n] *)
Lemma int_str_of_int (n : Z) : Py.int (Py.str_of_int n) = Ok n.
Proof.
  destruct n as [|p|p]; [reflexivity | apply int_of_pos |].
  unfold Py.str_of_int. cbn [Z.to_int NilZero.string_of_int].
  pose proof (DecimalPos.Unsigned.to_uint_nonnil p) as Hnil.
  pose proof (DecimalPos.Unsigned.of_to p) as Hval.
  pose proof (uint_no_space (Pos.to_uint p)) as Hsp.
  pose proof (int_digits_zero (Pos.to_uint p) false (or_introl Hnil)) as Hd.
  rewrite Hval in Hd. cbn [Z.of_N] in Hd.
  assert (Hu : NilZero.string_of_uint (Pos.to_uint p)
               = NilEmpty.string_of_uint (Pos.to_uint p))
    by (unfold NilZero.string_of_uint; destruct (Pos.to_uint p); congruence).
  rewrite Hu. unfold Py.int.
  rewrite int_trim_no_space by (cbn [no_space]; rewrite Hsp; reflexivity).
  cbv iota. rewrite Hd. reflexivity.
Qed.
(** Whitespace around a number: blanks and newlines are skipped, the
    separator U+001C in a plain ASCII string is not. *)
Example int_whitespace :
  Py.int " 42 " = Ok 42
  /\ Py.int (String (ascii_of_nat 10) "-7") = Ok (-7)
  /\ Py.int (String (ascii_of_nat 28) "7") = Raise ValueError.
Proof. repeat split; reflexivity. Qed.

Lemma str_of_int_lacks_slash (n : Z) : lacks "/" (Py.str_of_int n) = true.
Proof.
  unfold Py.str_of_int.
  destruct n as [|p|p]; [reflexivity|..];
    cbn [Z.to_int NilZero.string_of_int]; unfold NilZero.string_of_uint;
    pose proof (uint_lacks_slash (Pos.to_uint p)) as H;
    destruct (Pos.to_uint p); try reflexivity; try exact H;
    cbn [lacks]; rewrite H; reflexivity.
Qed.

Lemma split_on_lacks (sep : ascii) (s : string) :
  lacks sep s = true -> Py.split_on sep s = [s].
Proof.
  induction s as [|c s IH]; [reflexivity|]. cbn [lacks Py.split_on].
  intros H. apply andb_prop in H as [Hc Hs].
  apply negb_true_iff in Hc. rewrite Hc, (IH Hs). reflexivity.
Qed.

Lemma split_on_app (sep : ascii) (a b : string) :
  lacks sep a = true ->
  Py.split_on sep (a ++ String sep b) = a :: Py.split_on sep b.
Proof.
  induction a as [|c a IH].
  - intros _. rewrite append_empty_l. cbn [Py.split_on].
    now rewrite Ascii.eqb_refl.
  - cbn [lacks]. intros H. apply andb_prop in H as [Hc Ha].
    apply negb_true_iff in Hc. rewrite append_cons. cbn [Py.split_on].
    rewrite Hc, (IH Ha). reflexivity.
Qed.

Lemma split_on_count (sep : ascii) (s : string) :
  length (Py.split_on sep s) = S (occurrences sep s).
Proof.
  induction s as [|c s IH]; [reflexivity|]. cbn [Py.split_on occurrences].
  destruct (Ascii.eqb c sep).
  - cbn [length]. now rewrite IH.
  - pose proof (split_on_length sep s).
    destruct (Py.split_on sep s); cbn [length] in *; lia.
Qed.

Lemma period_seconds_table (c : ascii) (d : Z) :
  SimpleRateThrottle.period_seconds c = Ok d -> In d [1; 60; 3600; 86400].
Proof.
  unfold SimpleRateThrottle.period_seconds.
  destruct (Ascii.eqb c "s"); [intros [= <-]; simpl; tauto|].
  destruct (Ascii.eqb c "m"); [intros [= <-]; simpl; tauto|].
  destruct (Ascii.eqb c "h"); [intros [= <-]; simpl; tauto|].
  destruct (Ascii.eqb c "d"); [intros [= <-]; simpl; tauto|].
  discriminate.
Qed.

(** X14. Rendering and parsing agree.  For every integer [n] and every
    period that begins with one of [s], [m], [h], [d] and holds no slash,
    the rate string [str(n) + "/" + period] parses to [n] requests per 1,
    60, 3600 or 86400 seconds, whatever follows the first letter of the
    period; the multi-tier parser also keeps the string as the tier's
    name. *)
Theorem parse_rate_round_trip (n : Z) (c : ascii) (rest : string) (d : Z) :
  SimpleRateThrottle.period_seconds c = Ok d ->
  lacks "/" rest = true ->
  let spec := (Py.str_of_int n ++ String "/" (String c rest))%string in
  SimpleRateThrottle.parse_rate (Some spec)
  = Ok (Some {| SimpleRateThrottle.num_requests := n;
                SimpleRateThrottle.duration := d |})
  /\ CommonThrottle.parse_rate (Some spec)
     = Ok (Some {| CommonThrottle.rate_name := spec;
                   CommonThrottle.rate_num_requests := n;
                   CommonThrottle.rate_duration := d |}).
Proof.
  intros Hc Hrest spec.
  assert (Hsplit : Py.split_on "/" spec = [Py.str_of_int n; String c rest]).
  { unfold spec. rewrite split_on_app by apply str_of_int_lacks_slash.
    rewrite split_on_lacks; [reflexivity|].
    cbn [lacks]. rewrite Hrest, andb_true_r. apply negb_true_iff.
    destruct (Ascii.eqb_spec c "/") as [->|]; [discriminate | reflexivity]. }
  unfold SimpleRateThrottle.parse_rate, CommonThrottle.parse_rate.
  rewrite Hsplit, int_str_of_int. cbn [rbind]. rewrite Hc. cbn [rbind].
  split; reflexivity.
Qed.

Lemma parse_rate_round_trip_witness :
  SimpleRateThrottle.parse_rate (Some (Py.str_of_int (-3) ++ "/minute")%string)
  = Ok (Some {| SimpleRateThrottle.num_requests := -3;
                SimpleRateThrottle.duration := 60 |}).
Proof.
  apply (parse_rate_round_trip (-3) "m" "inute" 60); reflexivity.
Defined.

(** X15. What a rate string must look like.  A rate string whose number
    of slashes is not one is refused with [ValueError] by both parsers;
    and whenever a rate string is accepted its window is 1, 60, 3600 or
    86400 seconds, so never zero or negative. *)
Theorem parse_rate_shape (spec : string) :
  (occurrences "/" spec <> 1%nat ->
   SimpleRateThrottle.parse_rate (Some spec) = Raise ValueError
   /\ CommonThrottle.parse_rate (Some spec) = Raise ValueError)
  /\ (forall r, SimpleRateThrottle.parse_rate (Some spec) = Ok (Some r) ->
                In (SimpleRateThrottle.duration r) [1; 60; 3600; 86400])
  /\ (forall t, CommonThrottle.parse_rate (Some spec) = Ok (Some t) ->
                In (CommonThrottle.rate_duration t) [1; 60; 3600; 86400]).
Proof.
  split; [|split].
  - intros Hocc. pose proof (split_on_count "/" spec) as Hlen.
    unfold SimpleRateThrottle.parse_rate, CommonThrottle.parse_rate.
    destruct (Py.split_on "/" spec) as [|a [|b [|x l]]]; cbn [length] in Hlen;
      try (split; reflexivity).
    lia.
  - intros r. unfold SimpleRateThrottle.parse_rate.
    destruct (Py.split_on "/" spec) as [|num [|period [|? ?]]]; try discriminate.
    destruct (Py.int num) as [n|e]; [|discriminate]. cbn [rbind].
    destruct period as [|ch period]; [discriminate|].
    destruct (SimpleRateThrottle.period_seconds ch) as [d|e] eqn:Hd; [|discriminate].
    cbn [rbind]. intros [= <-]. cbn [SimpleRateThrottle.duration].
    now apply (period_seconds_table ch).
  - intros t. apply parse_rate_window.
Qed.

Lemma parse_rate_shape_witness :
  SimpleRateThrottle.parse_rate (Some "10/1/min") = Raise ValueError
  /\ CommonThrottle.parse_rate (Some "10/1/min") = Raise ValueError.
Proof.
  apply (parse_rate_shape "10/1/min"). discriminate.
Defined.

(** ** BaseThrottle.get_ident, continued *)

Lemma drop_spaces_no_space (s : string) : no_space (Py.drop_spaces s) = true.
Proof.
  induction s as [|c s IH]; [reflexivity|]. cbn [Py.drop_spaces].
  destruct (Py.is_space c) eqn:Hc; [exact IH|].
  cbn [no_space]. now rewrite Hc, IH.
Qed.

Lemma index_nonneg {A : Type} (l : list A) (i : Z) :
  0 <= i ->
  Py.index l i = match nth_error l (Z.to_nat i) with
                 | Some x => Ok x
                 | None => Raise IndexError
                 end.
Proof.
  intros Hi. unfold Py.index. cbv zeta.
  assert (Hneg : (i <? 0) = false) by (apply Z.ltb_ge; lia).
  rewrite !Hneg. rewrite ?Hneg. cbn [orb].
  destruct (Z.leb_spec (Z.of_nat (length l)) i) as [Hout|Hin].
  - assert (Hnone : nth_error l (Z.to_nat i) = None) by (apply nth_error_None; lia).
    rewrite Hnone. reflexivity.
  - reflexivity.
Qed.

(** X16. The resolver cannot be made to fail by the client.  With no
    proxy depth set, or a depth that is not negative, [get_ident] returns
    whatever the forwarded header holds; with a positive depth and the
    header present the identity neither starts nor ends with whitespace;
    with no depth set and a non-empty header it holds no whitespace at
    all. *)
Theorem get_ident_never_raises (num_proxies : option Z) (request : Request) :
  (forall n, num_proxies = Some n -> 0 <= n) ->
  exists v,
    BaseThrottle.get_ident num_proxies request = Ok v
    /\ (forall n h,
          num_proxies = Some n -> 0 < n -> HTTP_X_FORWARDED_FOR request = Some h ->
          exists s, v = Some s
                    /\ (forall c r, s = String c r -> Py.is_space c = false)
                    /\ (forall r c, s = (r ++ String c EmptyString)%string ->
                                    Py.is_space c = false))
    /\ (forall h,
          num_proxies = None -> HTTP_X_FORWARDED_FOR request = Some h ->
          h <> EmptyString ->
          exists s, v = Some s /\ no_space s = true).
Proof.
  intros Hn. unfold BaseThrottle.get_ident.
  destruct num_proxies as [n|].
  - specialize (Hn n eq_refl).
    destruct (HTTP_X_FORWARDED_FOR request) as [h|] eqn:Hx.
    + destruct (Z.eqb_spec n 0) as [->|Hn0].
      * eexists. split; [reflexivity|]. split; [intros ? ? [= <-]; lia | discriminate].
      * pose proof (split_on_length "," h) as Hlen.
        destruct (index_from_end (Py.split_on "," h)
                    (Z.min n (Z.of_nat (length (Py.split_on "," h)))))
          as (seg & _ & Hidx); [lia|].
        rewrite Hidx. cbn [rbind].
        eexists. split; [reflexivity|]. split; [|discriminate].
        intros n' h' _ _ _. exists (Py.strip seg). split; [reflexivity|].
        destruct (strip_spec seg) as (pre & post & _ & _ & _ & Hfirst & Hlast).
        split; assumption.
    + eexists. split; [reflexivity|]. split; [discriminate | discriminate].
  - destruct (HTTP_X_FORWARDED_FOR request) as [[|c h]|] eqn:Hx.
    + eexists. split; [reflexivity|]. split; [discriminate|].
      intros h _ [= <-] Hh. congruence.
    + cbn [Py.truthy option_map].
      eexists. split; [reflexivity|]. split; [discriminate|].
      intros h' _ [= <-] _. eexists. split; [reflexivity|].
      rewrite join_split_ws. apply drop_spaces_no_space.
    + eexists. split; [reflexivity|]. split; discriminate.
Qed.

Lemma get_ident_never_raises_witness :
  exists v,
    BaseThrottle.get_ident (Some 7) (req_xff " 1.1.1.1 ,2.2.2.2" "9.9.9.9") = Ok v.
Proof.
  destruct (get_ident_never_raises (Some 7) (req_xff " 1.1.1.1 ,2.2.2.2" "9.9.9.9"))
    as (v & Hv & _).
  - intros n [= <-]. discriminate.
  - exists v. exact Hv.
Defined.

(** X17. A negative proxy depth counts from the wrong end.  With depth
    [n < 0] and the header present, [get_ident] returns the stripped
    segment at index [-n] from the left when the header has more than
    [-n] segments, and raises [IndexError] otherwise. *)
Theorem get_ident_negative_depth (n : Z) (h : string) (request : Request) :
  n < 0 ->
  HTTP_X_FORWARDED_FOR request = Some h ->
  BaseThrottle.get_ident (Some n) request
  = match nth_error (Py.split_on "," h) (Z.to_nat (- n)) with
    | Some seg => Ok (Some (Py.strip seg))
    | None => Raise IndexError
    end.
Proof.
  intros Hn Hx. unfold BaseThrottle.get_ident. rewrite Hx.
  assert (Hn0 : (n =? 0) = false) by (apply Z.eqb_neq; lia).
  rewrite Hn0.
  replace (Z.min n (Z.of_nat (length (Py.split_on "," h)))) with n by lia.
  rewrite index_nonneg by lia.
  destruct (nth_error (Py.split_on "," h) (Z.to_nat (- n))); reflexivity.
Qed.

Lemma get_ident_negative_depth_witness :
  BaseThrottle.get_ident (Some (-1)) (req_xff "1.1.1.1, 2.2.2.2, 3.3.3.3" "9.9.9.9")
  = Ok (Some "2.2.2.2")
  /\ BaseThrottle.get_ident (Some (-3)) (req_xff "1.1.1.1, 2.2.2.2, 3.3.3.3" "9.9.9.9")
     = Raise IndexError.
Proof.
  split.
  - apply (get_ident_negative_depth (-1) "1.1.1.1, 2.2.2.2, 3.3.3.3");
      reflexivity.
  - apply (get_ident_negative_depth (-3) "1.1.1.1, 2.2.2.2, 3.3.3.3");
      reflexivity.
Defined.

(** ** The scope variants *)

(** X18. The per-view throttle at its edges.  A view with no
    [throttle_scope], or an empty one, is admitted without the rate table
    or the cache being consulted; a scope that the rate table does not
    hold raises [ImproperlyConfigured] before the cache is touched; a
    scope whose rate is [None] is admitted with the cache untouched; and
    a scope with a rate is throttled as [SimpleRateThrottle] throttles,
    under the key of that scope. *)
Theorem scoped_allow_request_edges
    (rates : gmap string (option string)) (num_proxies : option Z) (timer : Q)
    (request : Request) (view : View) (c : Cache) :
  let run := ScopedRateThrottle.allow_request rates num_proxies timer request view c in
  (throttle_scope view = None \/ throttle_scope view = Some EmptyString ->
   run = (Ok (true, None), c))
  /\ (forall sc, throttle_scope view = Some sc -> sc <> EmptyString ->
                 rates !! sc = None ->
                 exists msg, run = (Raise (ImproperlyConfigured msg), c))
  /\ (forall sc, throttle_scope view = Some sc -> sc <> EmptyString ->
                 rates !! sc = Some None ->
                 run = (Ok (true, None), c))
  /\ (forall sc spec r key,
        throttle_scope view = Some sc -> sc <> EmptyString ->
        rates !! sc = Some (Some spec) ->
        SimpleRateThrottle.parse_rate (Some spec) = Ok (Some r) ->
        ScopedRateThrottle.get_cache_key sc num_proxies request = Ok key ->
        run = SimpleRateThrottle.allow_request (Some r) key timer c).
Proof.
  intros run. unfold run, ScopedRateThrottle.allow_request. clear run.
  split; [|split; [|split]].
  - intros [-> | ->]; reflexivity.
  - intros sc -> Hsc Hr. destruct sc as [|ch sc]; [congruence|].
    unfold bind, lift, SimpleRateThrottle.get_rate. rewrite Hr.
    eexists. reflexivity.
  - intros sc -> Hsc Hr. destruct sc as [|ch sc]; [congruence|].
    unfold bind, lift, SimpleRateThrottle.get_rate. rewrite Hr. reflexivity.
  - intros sc spec r key -> Hsc Hr Hp Hk. destruct sc as [|ch sc]; [congruence|].
    cbv zeta. unfold bind at 1, lift at 1, SimpleRateThrottle.get_rate.
    rewrite Hr. unfold bind at 1, lift at 1. rewrite Hp.
    unfold bind at 1, lift at 1. rewrite Hk. reflexivity.
Qed.

Lemma scoped_allow_request_edges_witness :
  (exists msg,
      ScopedRateThrottle.allow_request scoped_rates None 0
        (req_from "1.2.3.4" anonymous "GET") (view_of (Some "reports")) cache_0_10
      = (Raise (ImproperlyConfigured msg), cache_0_10))
  /\ ScopedRateThrottle.allow_request scoped_rates None 0
       (req_from "1.2.3.4" anonymous "GET") (view_of (Some "search")) cache_0_10
     = (Ok (true, None), cache_0_10)
  /\ ScopedRateThrottle.allow_request scoped_rates None 0
       (req_from "1.2.3.4" anonymous "GET") (view_of None) cache_0_10
     = (Ok (true, None), cache_0_10).
Proof.
  split; [|split].
  - apply (scoped_allow_request_edges scoped_rates None 0
             (req_from "1.2.3.4" anonymous "GET") (view_of (Some "reports"))
             cache_0_10 : _ /\ _ /\ _ /\ _) with (sc := "reports");
      [reflexivity | discriminate | reflexivity].
  - apply (scoped_allow_request_edges scoped_rates None 0
             (req_from "1.2.3.4" anonymous "GET") (view_of (Some "search"))
             cache_0_10 : _ /\ _ /\ _ /\ _) with (sc := "search");
      [reflexivity | discriminate | reflexivity].
  - apply (scoped_allow_request_edges scoped_rates None 0
             (req_from "1.2.3.4" anonymous "GET") (view_of None)
             cache_0_10 : _ /\ _ /\ _ /\ _).
    left. reflexivity.
Defined.

(** X19. Who the anonymous and the per-user throttles look at.  The
    anonymous throttle admits every authenticated request without
    touching the cache and without reading its headers; the per-user
    throttle gives two authenticated requests of one user the same
    treatment, whatever their addresses, headers and methods. *)
Theorem authenticated_requests
    (rate : option SimpleRateThrottle.Rate) (num_proxies : option Z) (timer : Q)
    (request request' : Request) (c : Cache) :
  is_authenticated (user request) = true ->
  AnonRateThrottle.allow_request rate num_proxies timer request c
  = (Ok (true, None), c)
  /\ (is_authenticated (user request') = true ->
      pk (user request') = pk (user request) ->
      UserRateThrottle.allow_request rate num_proxies timer request' c
      = UserRateThrottle.allow_request rate num_proxies timer request c).
Proof.
  intros Ha. split.
  - unfold AnonRateThrottle.allow_request, AnonRateThrottle.get_cache_key.
    rewrite Ha. destruct rate; reflexivity.
  - intros Ha' Hpk.
    unfold UserRateThrottle.allow_request, UserRateThrottle.get_cache_key.
    rewrite Ha, Ha', Hpk. reflexivity.
Qed.

Lemma authenticated_requests_witness :
  AnonRateThrottle.allow_request (Some two_per_min) (Some (-5)) 15
    (req_from "1.2.3.4" (member 7) "GET") cache_0_10
  = (Ok (true, None), cache_0_10).
Proof.
  apply (authenticated_requests (Some two_per_min) (Some (-5)) 15
           (req_from "1.2.3.4" (member 7) "GET")
           (req_from "1.2.3.4" (member 7) "GET") cache_0_10).
  reflexivity.
Defined.

Example action_not_throttled :
  ThrottleByActionMixin.allow_request ["create"; "destroy"] (view_of (Some "uploads"))
    (ScopedRateThrottle.allow_request ∅ None 0
       (req_from "1.2.3.4" anonymous "GET") (view_of (Some "uploads"))) cache_0_10
  = (Ok (true, None), cache_0_10).
Proof. reflexivity. Qed.

(** ** A rate of nothing *)

Lemma serve_refused_step (r : SimpleRateThrottle.Rate) (k : string) (t : Q)
    (rest : list Q) (c : Cache) :
  SimpleRateThrottle.num_requests r <= 0 ->
  serve (Some r) (Some k) (t :: rest) c
  = match serve (Some r) (Some k) rest
            {| store := store c; ops := ops c ++ [CacheGet k] |} with
    | (Ok ds, c') => (Ok (false :: ds), c')
    | (Raise e, c') => (Raise e, c')
    end.
Proof.
  intros Hn. cbn [serve]. unfold bind at 1.
  rewrite allow_request_deny by lia.
  unfold bind, ret.
  destruct (serve (Some r) (Some k) rest _) as [[ds|e] c']; reflexivity.
Qed.

(** X20. A rate of zero requests, or of a negative number, shuts the
    key: every call is refused, whatever the instants and whatever is
    stored, and the store is never written. *)
Theorem zero_rate_refuses_everything
    (r : SimpleRateThrottle.Rate) (k : string) (timers : list Q) (c : Cache) :
  SimpleRateThrottle.num_requests r <= 0 ->
  exists c',
    serve (Some r) (Some k) timers c = (Ok (repeat false (length timers)), c')
    /\ store c' = store c.
Proof.
  intros Hn. revert c. induction timers as [|t rest IH]; intros c.
  - exists c. split; reflexivity.
  - rewrite serve_refused_step by exact Hn.
    destruct (IH {| store := store c; ops := ops c ++ [CacheGet k] |})
      as (c' & Hrun & Hst).
    rewrite Hrun. exists c'. split; [reflexivity | exact Hst].
Qed.

Lemma zero_rate_refuses_everything_witness :
  exists c',
    serve (Some {| SimpleRateThrottle.num_requests := 0;
                   SimpleRateThrottle.duration := 60 |})
          (Some key_K) [100; 200; 50]%Q cache_0_10
    = (Ok [false; false; false], c')
    /\ store c' = store cache_0_10.
Proof.
  apply (zero_rate_refuses_everything
           {| SimpleRateThrottle.num_requests := 0;
              SimpleRateThrottle.duration := 60 |}
           key_K [100; 200; 50]%Q cache_0_10).
  discriminate.
Defined.

(** ** The whitelist as a set *)

(** X21. Only membership counts in the whitelist.  Two whitelists with
    the same entries, in whatever order and with whatever repetitions,
    whitelist the same identities; adding entries never takes an identity
    off the whitelist; and with no entry nobody is whitelisted. *)
Theorem whitelist_is_a_set
    (all_matching_cidrs : Ident -> list string -> option (list string))
    (ident : Ident) (l l' : list WhitelistEntry) :
  ((forall e, In e l <-> In e l') ->
   CommonThrottle.is_whitelisted_in all_matching_cidrs ident l
   = CommonThrottle.is_whitelisted_in all_matching_cidrs ident l')
  /\ CommonThrottle.is_whitelisted_in all_matching_cidrs ident (l ++ l')
     = CommonThrottle.is_whitelisted_in all_matching_cidrs ident l
       || CommonThrottle.is_whitelisted_in all_matching_cidrs ident l'
  /\ CommonThrottle.is_whitelisted_in all_matching_cidrs ident [] = false.
Proof.
  split; [|split; [|reflexivity]].
  - intros Hsame.
    destruct (CommonThrottle.is_whitelisted_in all_matching_cidrs ident l) eqn:H1,
             (CommonThrottle.is_whitelisted_in all_matching_cidrs ident l') eqn:H2;
      try reflexivity.
    + apply is_whitelisted_in_iff in H1 as (e & He & Hm).
      assert (H3 : CommonThrottle.is_whitelisted_in all_matching_cidrs ident l' = true)
        by (apply is_whitelisted_in_iff; exists e; split; [now apply Hsame | exact Hm]).
      congruence.
    + apply is_whitelisted_in_iff in H2 as (e & He & Hm).
      assert (H3 : CommonThrottle.is_whitelisted_in all_matching_cidrs ident l = true)
        by (apply is_whitelisted_in_iff; exists e; split; [now apply Hsame | exact Hm]).
      congruence.
  - induction l as [|x l IH]; [reflexivity|].
    cbn [app CommonThrottle.is_whitelisted_in].
    destruct (CommonThrottle.entry_matches all_matching_cidrs ident x);
      [reflexivity | exact IH].
Qed.

Lemma whitelist_is_a_set_witness :
  CommonThrottle.is_whitelisted_in Netaddr4.all_matching_cidrs (IdStr "10.1.2.3")
    [WInt 7; WStr "10.0.0.0/8"]
  = CommonThrottle.is_whitelisted_in Netaddr4.all_matching_cidrs (IdStr "10.1.2.3")
      [WStr "10.0.0.0/8"; WInt 7; WInt 7].
Proof.
  destruct (whitelist_is_a_set Netaddr4.all_matching_cidrs (IdStr "10.1.2.3")
              [WInt 7; WStr "10.0.0.0/8"] [WStr "10.0.0.0/8"; WInt 7; WInt 7])
    as [Hsame _].
  apply Hsame. intros e. simpl. tauto.
Defined.

(** ** tests/factories.py *)

(** X22. Distinct sequence numbers give distinct users: the user names
    built by the factory for two different numbers differ, and so do the
    e-mail addresses built from two different user names. *)
Theorem factory_users_are_distinct (n m : Z) (u u' : string) :
  (UserFactory.username n = UserFactory.username m -> n = m)
  /\ (UserFactory.email u = UserFactory.email u' -> u = u')
  /\ (n <> m ->
      UserFactory.email (UserFactory.username n)
      <> UserFactory.email (UserFactory.username m)).
Proof.
  assert (Hu : forall a b, UserFactory.username a = UserFactory.username b -> a = b).
  { intros a b H. unfold UserFactory.username in H.
    apply append_inj_l in H. now apply str_of_int_inj. }
  assert (He : forall a b, UserFactory.email a = UserFactory.email b -> a = b).
  { intros a b H. unfold UserFactory.email in H. now apply append_inj_r in H. }
  split; [apply Hu|]. split; [apply He|].
  intros Hne Heq. apply Hne, Hu, He, Heq.
Qed.

Lemma factory_users_are_distinct_witness :
  UserFactory.email (UserFactory.username 1)
  <> UserFactory.email (UserFactory.username 10).
Proof.
  apply (factory_users_are_distinct 1 10 "user1" "user10"). discriminate.
Defined.

Lemma setup_next_sequence_own (cls : string) (bases : list string)
    (attrs attrs' : gmap string Z) (v : Z) :
  Factory.setup_next_sequence cls bases attrs = (Some v, attrs') ->
  attrs' !! cls = Some v.
Proof.
  unfold Factory.setup_next_sequence.
  destruct (Factory.get_SEQUENCE attrs (cls :: bases)); intros [= <- <-].
  apply lookup_insert_eq.
Qed.

Lemma next_sequences_other (calls : list (string * list string)) (cls : string) :
  Forall (fun call => fst call <> cls) calls ->
  forall attrs, snd (Factory.next_sequences calls attrs) !! cls = attrs !! cls.
Proof.
  induction 1 as [|[d bases] calls Hd Hrest IH]; intros attrs; [reflexivity|].
  cbn [Factory.next_sequences].
  destruct (Factory.setup_next_sequence d bases attrs) as [v attrs1] eqn:H1.
  specialize (IH attrs1).
  destruct (Factory.next_sequences calls attrs1) as [vs attrs2].
  cbn [snd] in *. rewrite IH.
  unfold Factory.setup_next_sequence in H1.
  destruct (Factory.get_SEQUENCE attrs (d :: bases)); injection H1 as <- <-;
    [|reflexivity].
  apply lookup_insert_ne. exact Hd.
Qed.

(** X23. Within one class sequence numbers are never repeated.  Once a
    call of [_setup_next_sequence] on a class has returned [v], the next
    call on that class returns [v + 1], whatever calls on other classes,
    bases or subclasses, come in between.  (Across classes numbers do
    repeat: a subclass starts from the counter it inherits.) *)
Theorem sequence_numbers_are_fresh
    (cls : string) (bases bases' : list string) (attrs attrs' : gmap string Z)
    (v : Z) (between : list (string * list string)) :
  Factory.setup_next_sequence cls bases attrs = (Some v, attrs') ->
  Forall (fun call => fst call <> cls) between ->
  fst (Factory.setup_next_sequence cls bases'
         (snd (Factory.next_sequences between attrs')))
  = Some (v + 1).
Proof.
  intros Hfirst Hbetween.
  pose proof (next_sequences_other between cls Hbetween attrs') as Hkeep.
  rewrite (setup_next_sequence_own cls bases attrs attrs' v Hfirst) in Hkeep.
  unfold Factory.setup_next_sequence. cbn [Factory.get_SEQUENCE].
  rewrite Hkeep. reflexivity.
Qed.

Lemma sequence_numbers_are_fresh_witness :
  fst (Factory.setup_next_sequence "UserFactory" ["Factory"]
         (snd (Factory.next_sequences [("Factory", []); ("Factory", [])]
                 (<["UserFactory" := 2]> Factory.loaded))))
  = Some (2 + 1).
Proof.
  apply (sequence_numbers_are_fresh "UserFactory" ["Factory"] ["Factory"]
           Factory.loaded (<["UserFactory" := 2]> Factory.loaded) 2
           [("Factory", []); ("Factory", [])]).
  - reflexivity.
  - repeat constructor; discriminate.
Defined.

(** Calls on [Factory], [UserFactory], [Factory]: the subclass copies
    the inherited counter, so the base class hands out 3 again. *)
Example sequence_numbers_across_classes :
  fst (Factory.next_sequences
         [("Factory", []); ("UserFactory", ["Factory"]); ("Factory", [])]
         Factory.loaded)
  = [Some 2; Some 3; Some 3].
Proof. reflexivity. Qed.

(** ** The plugin registry *)

Section Registry.

Variable login_func_t : Type.

Local Abbreviation register_all := (AuthServices.register_all login_func_t).
Local Abbreviation plugin := (AuthServices.Build_Plugin login_func_t).

Lemma register_all_snoc (l : list (string * login_func_t)) (name : string)
    (f : login_func_t) (m : gmap string (AuthServices.Plugin login_func_t)) :
  register_all (l ++ [(name, f)]) m
  = AuthServices.register_auth_plugin login_func_t name f (register_all l m).
Proof. unfold AuthServices.register_all. rewrite fold_left_app. reflexivity. Qed.

(** X24. The registry keeps the last registration of each name.  After
    a series of registrations, looking a name up among the plugins gives
    the login function registered last under it, whatever was registered
    under other names afterwards; a name never registered is found only
    if it was there before. *)
Theorem registry_keeps_last_registration
    (before after : list (string * login_func_t)) (name : string) (f : login_func_t)
    (m : gmap string (AuthServices.Plugin login_func_t)) :
  (~ In name (map fst after) ->
   AuthServices.get_auth_plugins login_func_t
     (register_all (before ++ (name, f) :: after) m) !! name
   = Some (plugin f))
  /\ (~ In name (map fst after) ->
      AuthServices.get_auth_plugins login_func_t (register_all after m) !! name
      = m !! name).
Proof.
  assert (Hother : forall l m', ~ In name (map fst l) ->
                                register_all l m' !! name = m' !! name).
  { induction l as [|[n g] l IH] using rev_ind; intros m' Hn; [reflexivity|].
    rewrite register_all_snoc. unfold AuthServices.register_auth_plugin.
    rewrite map_app, in_app_iff in Hn. cbn in Hn.
    rewrite lookup_insert_ne by (intros ->; apply Hn; right; now left).
    apply IH. intros H. apply Hn. now left. }
  split.
  - intros Hn. unfold AuthServices.get_auth_plugins.
    change (before ++ (name, f) :: after) with (before ++ [(name, f)] ++ after).
    rewrite app_assoc. unfold AuthServices.register_all at 1.
    rewrite fold_left_app. fold (register_all (before ++ [(name, f)]) m).
    fold (register_all after (register_all (before ++ [(name, f)]) m)).
    rewrite Hother by exact Hn. rewrite register_all_snoc.
    apply lookup_insert_eq.
  - intros Hn. now apply Hother.
Qed.

End Registry.

Lemma registry_keeps_last_registration_witness :
  AuthServices.get_auth_plugins nat
    (AuthServices.register_all nat
       ([("normal", 1%nat)] ++ ("github", 2%nat) :: [("normal", 3%nat)]) ∅)
    !! "github"
  = Some (AuthServices.Build_Plugin nat 2%nat).
Proof.
  apply (registry_keeps_last_registration nat [("normal", 1%nat)]
           [("normal", 3%nat)] "github" 2%nat ∅).
  simpl. intros [H|[]]. discriminate.
Defined.

(** ** Sequences of requests through the tiers *)

Lemma live_self (d : Z) (t : Q) : 0 < d -> live t d t = true.
Proof.
  intros Hd. apply live_iff.
  assert (0 < inject_Z d)%Q by (unfold Qlt; simpl; lia). lra.
Qed.

Lemma prune_window (d : Z) (t : Q) (adm : list Q) :
  recent_first adm -> (forall a, In a adm -> (a <= t)%Q) ->
  prune t d (current_window d adm) = List.filter (live t d) adm.
Proof.
  intros Hs Hle.
  rewrite prune_recent_first by now apply current_window_recent_first.
  destruct adm as [|ta adm]; [reflexivity|].
  cbn [current_window]. apply filter_weaker.
  intros a Ha Hlive. apply live_iff. apply live_iff in Hlive.
  pose proof (Hle ta (or_introl eq_refl)). lra.
Qed.

Section CommonServing.

Import CommonThrottle.

Variable get_ip : Request -> option string.
Variable all_matching_cidrs : Ident -> list string -> option (list string).

Local Abbreviation get_ident := (CommonThrottle.get_ident get_ip).
Local Abbreviation is_whitelisted := (CommonThrottle.is_whitelisted all_matching_cidrs).
Local Abbreviation allow_request := (CommonThrottle.allow_request get_ip all_matching_cidrs).
Local Abbreviation serve_all := (common_serve get_ip all_matching_cidrs).

Variables (cfg : Settings) (request : Request) (tiers : list Rate).

Hypothesis rates_configured :
  get_rates cfg (get_scope request) = Ok (map Some tiers).
Hypothesis some_tier : tiers <> [].
Hypothesis not_whitelisted : is_whitelisted cfg (get_ident request) = false.

Local Abbreviation key := (tier_key (get_ident request) (get_scope request)).

Lemma common_serve_step (t : Q) (rest : list Q) (c : Cache) :
  serve_all cfg request (t :: rest) c
  = match allow_request cfg t request c with
    | (Ok d, c') =>
        match serve_all cfg request rest c' with
        | (Ok ds, c'') => (Ok (fst d :: ds), c'')
        | (Raise e, c'') => (Raise e, c'')
        end
    | (Raise e, c') => (Raise e, c')
    end.
Proof.
  cbn [common_serve]. unfold bind, ret.
  destruct (allow_request cfg t request c) as [[d|e] c']; [|reflexivity].
  destruct (serve_all cfg request rest c') as [[ds|e] c'']; reflexivity.
Qed.

(** One call, seen from the tiers: either some tier refuses and the
    store stays, or each tier's key receives the instant in front of its
    pruned history. *)
Lemma common_call (timer : Q) (c : Cache) :
  (exists t w c',
      In t tiers
      /\ tier_denies (get_ident request) (get_scope request) timer c t = true
      /\ allow_request cfg timer request c = (Ok (false, Some w), c')
      /\ store c' = store c)
  \/ (exists c',
        (forall t, In t tiers ->
           tier_denies (get_ident request) (get_scope request) timer c t = false)
        /\ allow_request cfg timer request c = (Ok (true, None), c')
        /\ forall t, In t tiers ->
             stored c' (key t)
             = timer :: tier_history (get_ident request) (get_scope request) timer c t).
Proof.
  rewrite (allow_request_tiers get_ip all_matching_cidrs cfg timer request tiers c
             rates_configured some_tier not_whitelisted).
  cbv zeta.
  destruct (List.filter (tier_denies (get_ident request) (get_scope request) timer c)
              tiers) as [|t0 den] eqn:Hf.
  - right. cbn [map Py.max]. eexists. split; [|split; [reflexivity|]].
    + now apply filter_nil_forall.
    + intros t Hin. unfold stored. cbn [store].
      rewrite (write_all_lookup timer _
                 (tier_write (get_ident request) (get_scope request) timer c t)).
      * reflexivity.
      * now apply (tier_writes_consistent cfg).
      * now apply in_map.
  - left.
    assert (Hin0 : In t0 (List.filter
                            (tier_denies (get_ident request) (get_scope request) timer c)
                            tiers))
      by (rewrite Hf; now left).
    apply filter_In in Hin0 as [Hin0 Hden0].
    cbn [map]. destruct (Py.max _) as [w|] eqn:Hmax; [|discriminate].
    exists t0, w. eexists. repeat split; assumption.
Qed.

Lemma common_serve_invariant (timers : list Q) :
  forall (c : Cache) (adm : list Q),
    chronological timers ->
    recent_first adm ->
    (forall t a, In t timers -> In a adm -> (a <= t)%Q) ->
    (forall t, In t tiers -> stored c (key t) = current_window (rate_duration t) adm) ->
    (forall t, In t tiers -> within_rate (rate_num_requests t) (rate_duration t) adm) ->
    exists ds c',
      serve_all cfg request timers c = (Ok ds, c')
      /\ length ds = length timers
      /\ forall t, In t tiers ->
           within_rate (rate_num_requests t) (rate_duration t)
                       (admitted timers ds ++ adm)
           /\ stored c' (key t)
              = current_window (rate_duration t) (admitted timers ds ++ adm).
Proof.
  induction timers as [|now rest IH]; intros c adm Hchr Hs Hle Hst Hrate.
  - exists [], c. split; [reflexivity|]. split; [reflexivity|].
    intros t Hin. split; [now apply Hrate | now apply Hst].
  - rewrite common_serve_step.
    inversion Hchr as [|? ? Hchr' Hnow]; subst.
    assert (Hadm : forall a, In a adm -> (a <= now)%Q)
      by (intros a Ha; apply (Hle now a); [now left | exact Ha]).
    assert (Hhist : forall t, In t tiers ->
               tier_history (get_ident request) (get_scope request) now c t
               = List.filter (live now (rate_duration t)) adm).
    { intros t Hin. unfold tier_history. fold (key t).
      rewrite (Hst t Hin). now apply prune_window. }
    destruct (common_call now c)
      as [(t0 & w & c' & Hin0 & Hden0 & Hrun & Hstore)
         |(c' & Hall & Hrun & Hwritten)].
    + rewrite Hrun.
      destruct (IH c' adm) as (ds & c'' & Hrest & Hlen & Hfin).
      * exact Hchr'.
      * exact Hs.
      * intros t a Ht Ha. apply (Hle t a); [now right | exact Ha].
      * intros t Hin. unfold stored. rewrite Hstore. now apply Hst.
      * exact Hrate.
      * rewrite Hrest. exists (false :: ds), c''. cbn [fst length].
        split; [reflexivity|]. split; [now rewrite Hlen|].
        rewrite admitted_cons. exact Hfin.
    + rewrite Hrun.
      destruct (IH c' (now :: adm)) as (ds & c'' & Hrest & Hlen & Hfin).
      * exact Hchr'.
      * constructor; [exact Hs|]. apply List.Forall_forall. exact Hadm.
      * intros t a Ht [<-|Ha].
        -- rewrite List.Forall_forall in Hnow. now apply Hnow.
        -- apply (Hle t a); [now right | exact Ha].
      * intros t Hin. rewrite (Hwritten t Hin), (Hhist t Hin).
        cbn [current_window List.filter].
        rewrite live_self; [reflexivity|].
        apply (get_rates_windows cfg _ _ t rates_configured). now apply in_map.
      * intros t Hin. cbn [within_rate List.filter].
        rewrite live_self
          by (apply (get_rates_windows cfg _ _ t rates_configured); now apply in_map).
        split; [|now apply Hrate].
        pose proof (Hall t Hin) as Hden. unfold tier_denies in Hden.
        apply geb_false in Hden. rewrite (Hhist t Hin) in Hden.
        cbn [length]. lia.
      * rewrite Hrest. exists (true :: ds), c''. cbn [fst length].
        split; [reflexivity|]. split; [now rewrite Hlen|].
        rewrite admitted_cons, <- app_assoc. exact Hfin.
Qed.

(** X25. Every tier's limit holds over time.  When one request is
    repeated at instants in clock order, its identity not whitelisted and
    the keys of its tiers fresh at the start, every call returns, and for
    each tier every admitted request, counted with the admitted requests
    before it that are less than the tier's window older, makes at most
    the tier's count. *)
Theorem common_admissions_within_every_rate (timers : list Q) (c : Cache) :
  chronological timers ->
  (forall t, In t tiers -> stored c (key t) = []) ->
  exists ds c',
    serve_all cfg request timers c = (Ok ds, c')
    /\ length ds = length timers
    /\ forall t newer now older,
         In t tiers ->
         admitted timers ds = newer ++ now :: older ->
         Z.of_nat (length (List.filter
                             (fun e => negb (Qle_bool e
                                (now - inject_Z (rate_duration t))))
                             (now :: older)))
         <= rate_num_requests t.
Proof.
  intros Hchr Hst.
  destruct (common_serve_invariant timers c [] Hchr)
    as (ds & c' & Hrun & Hlen & Hfin).
  - constructor.
  - intros t a _ [].
  - exact Hst.
  - intros t _. exact I.
  - exists ds, c'. split; [exact Hrun|]. split; [exact Hlen|].
    intros t newer now older Hin Heq.
    destruct (Hfin t Hin) as [Hw _]. rewrite app_nil_r in Hw.
    exact (within_rate_split _ _ _ newer older now Hw Heq).
Qed.

End CommonServing.

Lemma common_admissions_within_every_rate_witness :
  exists ds c',
    common_serve Netaddr4.get_ip Netaddr4.all_matching_cidrs demo_settings
      (req_from "11.1.2.3" anonymous "GET") [0; 0; 0; 2; 3; 70]%Q empty_cache
    = (Ok ds, c')
    /\ length ds = 6%nat.
Proof.
  destruct (common_admissions_within_every_rate
              Netaddr4.get_ip Netaddr4.all_matching_cidrs demo_settings
              (req_from "11.1.2.3" anonymous "GET") [tier_2s; tier_3min]
              eq_refl ltac:(discriminate) eq_refl
              [0; 0; 0; 2; 3; 70]%Q empty_cache)
    as (ds & c' & Hrun & Hlen & _).
  - repeat constructor; discriminate.
  - intros t _. reflexivity.
  - exists ds, c'. split; assumption.
Defined.

Example common_serve_two_tiers :
  fst (common_serve Netaddr4.get_ip Netaddr4.all_matching_cidrs demo_settings
         (req_from "11.1.2.3" anonymous "GET") [0; 0; 0; 2; 3; 70]%Q empty_cache)
  = Ok [true; true; false; true; false; true].
Proof. reflexivity. Qed.
